(** * Quote parser: a shallow embedding of [quote_parser.py]

    The development follows the source file top to bottom:
    [normalize_price], [extract_prices_from_line], the three vendor
    strategies, [format_quote_groups], [detect_format_and_parse],
    [extract_text_from_pdf] and [process_single_pdf].

    Modelling conventions.
    - A Python [str] is a list of Unicode code points ([N]).  ASCII
      literals are written [u "..."].
    - The interpreter's Unicode tables are concrete on ASCII; what they
      say about code points from 128 upwards is a parameter
      ([unicode_ext]), so every theorem holds for whatever the
      interpreter's Unicode database contains.
    - A Python [float] is an IEEE 754 binary64 value.  Every finite
      binary64 value is an integer multiple of 2^-1074, so a finite
      float is a sign and that integer ([units]); all roundings are
      round-to-nearest, ties-to-even, computed exactly on integers.
      [sum] adds floats one by one from the left, each addition
      rounded, as the interpreter does up to version 3.11; from 3.12
      on [sum] compensates its rounding errors, which can change the
      last digit of a sum of three or more costs.
    - A Python [int] is a [Z].  [int] of a text applies the
      interpreter's limit on the number of digits, at its default of
      4300.  [str] of an [int] is total here: the program applies it to
      sums of quantities only, after it has divided a float by them,
      and that division overflows long before the limit is reached.
    - Exceptions are values of [outcome]; the [try]/[except Exception]
      blocks of the source are [catch]. *)

From Stdlib Require Import ZArith NArith List Bool String Ascii Lia Sorted
  Permutation.
Import ListNotations.

Set Implicit Arguments.

(** ** Strings *)

Definition char := N.
Definition str := list char.

(** An ASCII literal as a list of code points. *)
Definition u (s : string) : str := map N_of_ascii (list_ascii_of_string s).

Definition ch (a : ascii) : char := N_of_ascii a.

Fixpoint str_eqb (a b : str) : bool :=
  match a, b with
  | [], [] => true
  | x :: a', y :: b' => N.eqb x y && str_eqb a' b'
  | _, _ => false
  end.

Fixpoint starts_with (p s : str) : bool :=
  match p, s with
  | [], _ => true
  | x :: p', y :: s' => N.eqb x y && starts_with p' s'
  | _ :: _, [] => false
  end.

(** [needle in hay] on strings. *)
Fixpoint contains (needle hay : str) : bool :=
  starts_with needle hay ||
  match hay with
  | [] => false
  | _ :: t => contains needle t
  end.

(** [x in [s1, ..., sn]] on a list of strings. *)
Definition str_in (x : str) (l : list str) : bool := existsb (str_eqb x) l.

Fixpoint drop_while (p : char -> bool) (s : str) : str :=
  match s with
  | [] => []
  | c :: t => if p c then drop_while p t else s
  end.

(** [sep.join(parts)]. *)
Fixpoint join (sep : str) (parts : list str) : str :=
  match parts with
  | [] => []
  | [p] => p
  | p :: rest => p ++ sep ++ join sep rest
  end.

(** [s.replace(old, new)] for a non-empty [old]: non-overlapping
    occurrences, left to right. *)
Fixpoint replace_go (old new : str) (skip : nat) (s : str) : str :=
  match s with
  | [] => []
  | c :: t =>
      match skip with
      | S n => replace_go old new n t
      | O => if starts_with old s
             then new ++ replace_go old new (List.length old - 1) t
             else c :: replace_go old new 0 t
      end
  end.

Definition replace (old new s : str) : str := replace_go old new 0 s.

(** ** Exceptions *)

Inductive exn := AttributeError | ValueError | OverflowError | ZeroDivisionError.

Inductive outcome (A : Type) : Type :=
| Returns (a : A)
| Raises (e : exn).

Arguments Returns {A} a.
Arguments Raises {A} e.

Definition bind {A B} (m : outcome A) (f : A -> outcome B) : outcome B :=
  match m with
  | Returns a => f a
  | Raises e => Raises e
  end.

Notation "x <- m ;; k" := (bind m (fun x => k))
  (at level 61, m at next level, right associativity).

(** [try: body except Exception: handler] *)
Definition catch {A} (body : outcome A) (handler : A) : A :=
  match body with
  | Returns a => a
  | Raises _ => handler
  end.

(** ** Character classes *)

(** Whitespace as [str.isspace], [str.strip] and the [\s] of [re]
    understand it. *)
Definition is_space (c : char) : bool :=
  ((9 <=? c) && (c <=? 13) || (28 <=? c) && (c <=? 32) ||
   (c =? 133) || (c =? 160) || (c =? 5760) ||
   (8192 <=? c) && (c <=? 8202) || (c =? 8232) || (c =? 8233) ||
   (c =? 8239) || (c =? 8287) || (c =? 12288))%N.

Definition ascii_digit (c : char) : bool := ((48 <=? c) && (c <=? 57))%N.
Definition ascii_upper_letter (c : char) : bool := ((65 <=? c) && (c <=? 90))%N.
Definition ascii_lower_letter (c : char) : bool := ((97 <=? c) && (c <=? 122))%N.

(** What the interpreter's Unicode database says about code points
    from 128 upwards. *)
Record unicode_ext := {
  (** decimal digit value of a character of category Nd *)
  ext_decimal : char -> option Z;
  (** alphanumeric in the sense of [\w] *)
  ext_alnum : char -> bool;
  (** [str.upper] of one character, given the text before and after *)
  ext_upper : str -> char -> str -> str;
  (** [str.lower] of one character, given the text before and after *)
  ext_lower : str -> char -> str -> str;
  (** does the text character match the pattern letter under
      [re.IGNORECASE] *)
  ext_ignorecase : char -> char -> bool
}.

(** The tables that know nothing beyond ASCII. *)
Definition ascii_only : unicode_ext :=
  {| ext_decimal := fun _ => None;
     ext_alnum := fun _ => false;
     ext_upper := fun _ c _ => [c];
     ext_lower := fun _ c _ => [c];
     ext_ignorecase := fun _ _ => false |}.

Section Engine.

Variable U : unicode_ext.

(** Decimal value of a digit character ([\d], [int], [float]). *)
Definition decimal (c : char) : option Z :=
  if (c <? 128)%N
  then if ascii_digit c then Some (Z.of_N c - 48)%Z else None
  else ext_decimal U c.

Definition is_digit (c : char) : bool :=
  match decimal c with Some _ => true | None => false end.

(** [\w]: alphanumeric or underscore. *)
Definition is_word (c : char) : bool :=
  if (c <? 128)%N
  then ascii_digit c || ascii_upper_letter c || ascii_lower_letter c || (c =? 95)%N
  else ext_alnum U c.

Fixpoint upper_go (before_rev s : str) : str :=
  match s with
  | [] => []
  | c :: t =>
      (if (c <? 128)%N
       then [if ascii_lower_letter c then (c - 32)%N else c]
       else ext_upper U (rev before_rev) c t)
      ++ upper_go (c :: before_rev) t
  end.

(** [s.upper()] *)
Definition upper (s : str) : str := upper_go [] s.

Fixpoint lower_go (before_rev s : str) : str :=
  match s with
  | [] => []
  | c :: t =>
      (if (c <? 128)%N
       then [if ascii_upper_letter c then (c + 32)%N else c]
       else ext_lower U (rev before_rev) c t)
      ++ lower_go (c :: before_rev) t
  end.

(** [s.lower()] *)
Definition lower (s : str) : str := lower_go [] s.

(** [s.strip()] *)
Definition strip (s : str) : str :=
  rev (drop_while is_space (rev (drop_while is_space s))).

(** Does the text character [c] match the pattern character [p] under
    [re.IGNORECASE]?  A pattern character that is no letter matches
    itself only. *)
Definition ignorecase (p c : char) : bool :=
  if ascii_upper_letter p || ascii_lower_letter p
  then if (c <? 128)%N
       then ((if ascii_upper_letter c then c + 32 else c) =?
             (if ascii_upper_letter p then p + 32 else p))%N
       else ext_ignorecase U p c
  else (c =? p)%N.

(** ** Integers and their decimal notation *)

Definition digit_char (d : Z) : char := Z.to_N (48 + d).

Fixpoint dec_go (fuel : nat) (n : Z) (acc : str) : str :=
  match fuel with
  | O => acc
  | S f =>
      let acc' := digit_char (n mod 10) :: acc in
      if (n <? 10)%Z then acc' else dec_go f (n / 10) acc'
  end.

(** Decimal digits of a natural number, no leading zeros. *)
Definition dec (n : Z) : str := dec_go (S (Z.to_nat (Z.log2 n))) n [].

(** [str(n)] for an [int]. *)
Definition py_str (n : Z) : str :=
  if (n <? 0)%Z then ch "-" :: dec (- n) else dec n.

(** Value of a string of ASCII digits. *)
Definition digits_value (s : str) : Z :=
  fold_left (fun acc c => 10 * acc + (Z.of_N c - 48))%Z s 0%Z.

(** Whitespace that the number parsers skip at both ends. *)
Definition c_space (c : char) : bool :=
  ((9 <=? c) && (c <=? 13) || (c =? 32))%N.

Definition c_strip (s : str) : str :=
  rev (drop_while c_space (rev (drop_while c_space s))).

(** Both [int] and [float] first bring their argument to ASCII: a
    Unicode decimal digit becomes its ASCII digit, Unicode whitespace a
    blank, and the text is cut at the first other non-ASCII character,
    which becomes a question mark. *)
Fixpoint to_ascii_number (s : str) : str :=
  match s with
  | [] => []
  | c :: t =>
      if (c <? 127)%N then c :: to_ascii_number t
      else if is_space c then 32%N :: to_ascii_number t
      else match decimal c with
           | Some d => digit_char d :: to_ascii_number t
           | None => [63%N]
           end
  end.

(** Underscores are allowed between two digits only; they are removed. *)
Fixpoint drop_underscores (prev : char) (s : str) : option str :=
  match s with
  | [] => if (prev =? 95)%N then None else Some []
  | c :: t =>
      if (c =? 95)%N
      then if ascii_digit prev then drop_underscores c t else None
      else if (prev =? 95)%N && negb (ascii_digit c) then None
           else option_map (cons c) (drop_underscores c t)
  end.

Definition split_sign (s : str) : bool * str :=
  match s with
  | c :: t => if (c =? 45)%N then (true, t)
              else if (c =? 43)%N then (false, t) else (false, s)
  | [] => (false, [])
  end.

Definition nonempty_digits (s : str) : bool :=
  match s with [] => false | _ => forallb ascii_digit s end.

(** [sys.get_int_max_str_digits()], at its default. *)
Definition int_max_str_digits : nat := 4300.

(** [int(s)] for a string [s].  More digits than the limit allows are
    refused, leading zeros counted, sign, blanks and underscores not. *)
Definition py_int (s : str) : outcome Z :=
  match drop_underscores 0%N (to_ascii_number s) with
  | None => Raises ValueError
  | Some t =>
      let (neg, body) := split_sign (c_strip t) in
      if nonempty_digits body
      then if (int_max_str_digits <? List.length body)%nat
           then Raises ValueError
           else Returns (if neg then - digits_value body
                         else digits_value body)%Z
      else Raises ValueError
  end.

(** ** Binary64 floats *)

(** A finite float is [units] times 2^-1074, with its sign. *)
Inductive float :=
| Finite (neg : bool) (units : Z)
| Infinity (neg : bool)
| NaN.

(** Nearest integer to [p / q], ties to even ([0 <= p], [0 < q]). *)
Definition rne (p q : Z) : Z :=
  let d := (p / q)%Z in
  let r := (p mod q)%Z in
  if (2 * r <? q)%Z then d
  else if (q <? 2 * r)%Z then (d + 1)%Z
  else if Z.even d then d else (d + 1)%Z.

(** Number of binary digits. *)
Definition bit_length (n : Z) : Z := if (n =? 0)%Z then 0%Z else (Z.log2 n + 1)%Z.

(** The weight of the last of the 53 significant bits of [p / q], as a
    power of two; no bit lies below the unit. *)
Definition grain (p q : Z) : Z := Z.max 0 (bit_length (p / q) - 53).

(** The binary64 value nearest to [p / q] units; [None] when the result
    is out of range. *)
Definition round_units (p q : Z) : option Z :=
  let v := (rne p (q * 2 ^ grain p q) * 2 ^ grain p q)%Z in
  if (v <? 2 ^ 2098)%Z then Some v else None.

Definition zero : float := Finite false 0.

(** The float nearest to [m * 10^e], with the given sign. *)
Definition float_of_decimal (neg : bool) (m e : Z) : float :=
  if (m =? 0)%Z then Finite neg 0
  else
    match (if (0 <=? e)%Z
           then round_units (m * 10 ^ e * 2 ^ 1074) 1
           else round_units (m * 2 ^ 1074) (10 ^ (- e))) with
    | Some v => Finite neg v
    | None => Infinity neg
    end.

Fixpoint take_digits (s : str) : str * str :=
  match s with
  | [] => ([], [])
  | c :: t => if ascii_digit c
              then let (d, r) := take_digits t in (c :: d, r)
              else ([], s)
  end.

(** The exponent part of a float literal: absent, or [e], an optional
    sign and at least one digit, up to the end of the text. *)
Definition parse_exponent (s : str) : option Z :=
  match s with
  | [] => Some 0%Z
  | c :: t =>
      if (c =? 101)%N || (c =? 69)%N
      then let (neg, body) := split_sign t in
           if nonempty_digits body
           then Some (if neg then - digits_value body else digits_value body)%Z
           else None
      else None
  end.

(** [float(s)] for a string [s]; [None] stands for [ValueError]. *)
Definition py_float (s : str) : option float :=
  match drop_underscores 0%N (to_ascii_number s) with
  | None => None
  | Some t =>
      let (neg, body) := split_sign (c_strip t) in
      let word := map (fun c => if ascii_upper_letter c then (c + 32)%N else c) body in
      if str_eqb word (u "inf") || str_eqb word (u "infinity") then Some (Infinity neg)
      else if str_eqb word (u "nan") then Some NaN
      else
        let (ip, r1) := take_digits body in
        let (fp, r2) := match r1 with
                        | c :: t1 => if (c =? 46)%N then take_digits t1 else ([], r1)
                        | [] => ([], [])
                        end in
        match ip ++ fp with
        | [] => None
        | _ :: _ =>
            match parse_exponent r2 with
            | None => None
            | Some e =>
                Some (float_of_decimal neg (digits_value (ip ++ fp))
                        (e - Z.of_nat (List.length fp)))
            end
        end
  end.

Definition signed (neg : bool) (v : Z) : Z := if neg then (- v)%Z else v.

(** [x + y] on floats. *)
Definition fadd (x y : float) : float :=
  match x, y with
  | NaN, _ | _, NaN => NaN
  | Infinity a, Infinity b => if Bool.eqb a b then Infinity a else NaN
  | Infinity a, Finite _ _ => Infinity a
  | Finite _ _, Infinity b => Infinity b
  | Finite a v, Finite b w =>
      let s := (signed a v + signed b w)%Z in
      if (s =? 0)%Z then Finite (a && b) 0
      else match round_units (Z.abs s) 1 with
           | Some r => Finite (s <? 0)%Z r
           | None => Infinity (s <? 0)%Z
           end
  end.

(** [float(n)] for an [int]. *)
Definition float_of_int (n : Z) : outcome float :=
  if (n =? 0)%Z then Returns zero
  else match round_units (Z.abs n * 2 ^ 1074) 1 with
       | Some r => Returns (Finite (n <? 0)%Z r)
       | None => Raises OverflowError
       end.

(** [x / y] on floats. *)
Definition fdiv (x y : float) : outcome float :=
  match x, y with
  | _, Finite _ 0%Z => Raises ZeroDivisionError
  | NaN, _ | _, NaN => Returns NaN
  | Infinity _, Infinity _ => Returns NaN
  | Infinity a, Finite b _ => Returns (Infinity (xorb a b))
  | Finite a _, Infinity b => Returns (Finite (xorb a b) 0)
  | Finite a v, Finite b w =>
      if (v =? 0)%Z then Returns (Finite (xorb a b) 0)
      else match round_units (v * 2 ^ 1074) w with
           | Some r => Returns (Finite (xorb a b) r)
           | None => Returns (Infinity (xorb a b))
           end
  end.

(** [x / n] for a float [x] and an int [n]. *)
Definition fdiv_int (x : float) (n : Z) : outcome float :=
  y <- float_of_int n ;; fdiv x y.

(** [f"{x:.2f}"] *)
Definition format_2f (x : float) : str :=
  match x with
  | NaN => u "nan"
  | Infinity neg => (if neg then u "-" else []) ++ u "inf"
  | Finite neg v =>
      let k := rne (100 * v) (2 ^ 1074) in
      (if neg then u "-" else []) ++ dec (k / 100) ++ u "." ++
      [digit_char (k / 10 mod 10); digit_char (k mod 10)]
  end.

(** ** [normalize_price] (source lines 11-37) *)

Definition currency_or_space (c : char) : bool :=
  ((c =? 36) || (c =? 8364) || (c =? 163) || (c =? 165))%N || is_space c.

Definition normalize_price (price_str : str) : str :=
  match price_str with
  | [] => u "0.00"
  | _ :: _ =>
      (* re.sub(r'[\$€£¥\s]', '', price_str) *)
      let cleaned := filter (fun c => negb (currency_or_space c)) price_str in
      (* cleaned.replace(',', '') *)
      let cleaned := filter (fun c => negb (c =? 44)%N) cleaned in
      let (sign, cleaned) :=
        match cleaned with
        | c :: t => if (c =? 45)%N then (u "-", t) else ([], cleaned)
        | [] => ([], [])
        end in
      match py_float (sign ++ cleaned) with
      | Some x => format_2f x
      | None => u "0.00"
      end
  end.

(** ** Regular expressions

    The patterns of the program, matched the way [re] matches them: by
    backtracking, leftmost alternative and longest repetition first.
    Every repetition in the program's patterns is over a single
    character class, and every pattern consumes at least one character,
    so the rules of [re] for empty matches never apply. *)

Inductive regex :=
| Eps
| Chr (c : char)                   (* a literal character *)
| ChrI (c : char)                  (* a literal character under re.IGNORECASE *)
| Cls (p : char -> bool)           (* a character class *)
| Cat (r1 r2 : regex)
| Alt (r1 r2 : regex)              (* r1|r2 *)
| Opt (r : regex)                  (* r? *)
| Star (p : char -> bool)          (* [class]* *)
| Bol                              (* ^ *)
| Eol                              (* $ *)
| WordB                            (* \b *)
| Group (r : regex).               (* (r) *)

(** [class]+ *)
Definition Plus (p : char -> bool) : regex := Cat (Cls p) (Star p).

Definition Seq (rs : list regex) : regex := fold_right Cat Eps rs.

(** [re.escape(s)] as a pattern *)
Definition Lit (s : str) : regex := Seq (map Chr s).

(** [re.escape(s)] under [re.IGNORECASE] *)
Definition LitI (s : str) : regex := Seq (map ChrI s).

(** The matcher's position: offset in the subject, the character before
    it, the text from it on, and the groups closed so far (last first). *)
Record mstate := {
  pos : nat;
  prev : option char;
  rest : str;
  caps : list (nat * nat)
}.

Definition step (st : mstate) (c : char) (t : str) : mstate :=
  {| pos := S (pos st); prev := Some c; rest := t; caps := caps st |}.

Definition word_before (st : mstate) : bool :=
  match prev st with Some c => is_word c | None => false end.

Definition word_after (st : mstate) : bool :=
  match rest st with c :: _ => is_word c | [] => false end.

Fixpoint star_run (p : char -> bool) (n : nat) (pv : option char) (s : str)
    (cs : list (nat * nat)) (k : mstate -> option mstate) : option mstate :=
  let here := {| pos := n; prev := pv; rest := s; caps := cs |} in
  match s with
  | [] => k here
  | c :: t =>
      if p c
      then match star_run p (S n) (Some c) t cs k with
           | Some m => Some m
           | None => k here
           end
      else k here
  end.

Fixpoint run (r : regex) (st : mstate) (k : mstate -> option mstate)
    : option mstate :=
  match r with
  | Eps => k st
  | Chr c =>
      match rest st with
      | x :: t => if (x =? c)%N then k (step st x t) else None
      | [] => None
      end
  | ChrI c =>
      match rest st with
      | x :: t => if ignorecase c x then k (step st x t) else None
      | [] => None
      end
  | Cls p =>
      match rest st with
      | x :: t => if p x then k (step st x t) else None
      | [] => None
      end
  | Cat r1 r2 => run r1 st (fun st' => run r2 st' k)
  | Alt r1 r2 =>
      match run r1 st k with
      | Some m => Some m
      | None => run r2 st k
      end
  | Opt r1 =>
      match run r1 st k with
      | Some m => Some m
      | None => k st
      end
  | Star p => star_run p (pos st) (prev st) (rest st) (caps st) k
  | Bol => match pos st with O => k st | S _ => None end
  | Eol =>
      match rest st with
      | [] => k st
      | [c] => if (c =? 10)%N then k st else None
      | _ => None
      end
  | WordB => if xorb (word_before st) (word_after st) then k st else None
  | Group r1 =>
      run r1 st (fun st' =>
        k {| pos := pos st'; prev := prev st'; rest := rest st';
             caps := (pos st, pos st') :: caps st' |})
  end.

(** A match: where it starts and the matcher's position at its end. *)
Definition found := (nat * mstate)%type.

Definition match_at (r : regex) (n : nat) (pv : option char) (s : str)
    : option found :=
  match run r {| pos := n; prev := pv; rest := s; caps := [] |} Some with
  | Some m => Some (n, m)
  | None => None
  end.

Fixpoint search_go (r : regex) (n : nat) (pv : option char) (s : str)
    : option found :=
  match match_at r n pv s with
  | Some f => Some f
  | None =>
      match s with
      | [] => None
      | c :: t => search_go r (S n) (Some c) t
      end
  end.

(** [re.match(r, s)] *)
Definition re_match (r : regex) (s : str) : option found := match_at r 0 None s.

(** [re.search(r, s)] *)
Definition re_search (r : regex) (s : str) : option found := search_go r 0 None s.

(** All non-overlapping matches, left to right; [skip] characters of
    the last match are still to be passed over. *)
Fixpoint scan (r : regex) (n : nat) (pv : option char) (s : str) (skip : nat)
    : list found :=
  match skip with
  | S sk =>
      match s with
      | [] => []
      | c :: t => scan r (S n) (Some c) t sk
      end
  | O =>
      match match_at r n pv s with
      | Some f =>
          f :: match s with
               | [] => []
               | c :: t => scan r (S n) (Some c) t (pos (snd f) - n - 1)
               end
      | None =>
          match s with
          | [] => []
          | c :: t => scan r (S n) (Some c) t 0
          end
      end
  end.

(** [re.finditer(r, s)] *)
Definition re_finditer (r : regex) (s : str) : list found := scan r 0 None s 0.

(** [s[a:b]] *)
Definition slice (s : str) (a b : nat) : str := firstn (b - a) (skipn a s).

(** [m.group(0)] *)
Definition matched (s : str) (f : found) : str := slice s (fst f) (pos (snd f)).

(** [m.group(i)], for a group that took part in the match *)
Definition group (s : str) (f : found) (i : nat) : str :=
  match nth_error (rev (caps (snd f))) (i - 1) with
  | Some (a, b) => slice s a b
  | None => []
  end.

(** [re.findall(r, s)] for a pattern without groups *)
Definition re_findall (r : regex) (s : str) : list str :=
  map (matched s) (re_finditer r s).

(** [re.findall(r, s)] for a pattern with one group *)
Definition re_findall1 (r : regex) (s : str) : list str :=
  map (fun f => group s f 1) (re_finditer r s).

(** [re.sub(r, '', s, count=1)] *)
Definition re_sub1 (r : regex) (s : str) : str :=
  match re_search r s with
  | Some f => firstn (fst f) s ++ skipn (pos (snd f)) s
  | None => s
  end.

Fixpoint sub_go (r : regex) (n : nat) (pv : option char) (s : str) (skip : nat)
    : str :=
  match s with
  | [] => []
  | c :: t =>
      match skip with
      | S sk => sub_go r (S n) (Some c) t sk
      | O =>
          match match_at r n pv s with
          | Some f =>
              match pos (snd f) - n with
              | O => c :: sub_go r (S n) (Some c) t 0
              | S len => sub_go r (S n) (Some c) t len
              end
          | None => c :: sub_go r (S n) (Some c) t 0
          end
      end
  end.

(** [re.sub(r, '', s)] *)
Definition re_sub (r : regex) (s : str) : str := sub_go r 0 None s 0.

(** ** [extract_prices_from_line] (source lines 39-58) *)

Definition digit_or_comma (c : char) : bool := is_digit c || (c =? 44)%N.


(** [-?\$?\s*[\d,]+\.\d{2}] *)
Definition price_pattern_decimal : regex :=
  Seq [Opt (Chr (ch "-")); Opt (Chr (ch "$")); Star is_space;
       Plus digit_or_comma; Chr (ch "."); Cls is_digit; Cls is_digit].

(** [-?\$?\s*[\d,]+] *)
Definition price_pattern_integer : regex :=
  Seq [Opt (Chr (ch "-")); Opt (Chr (ch "$")); Star is_space;
       Plus digit_or_comma].

Definition patterns : list regex := [price_pattern_decimal; price_pattern_integer].

(** The matches in the order in which the loop over [patterns] collects
    them. *)
Definition price_matches (line : str) : list found :=
  flat_map (fun pattern => re_finditer pattern line) patterns.

Definition is_blank (s : str) : bool :=
  match strip s with [] => true | _ :: _ => false end.

Definition extract_prices_from_line (line : str) : list str :=
  map normalize_price
    (filter (fun p => negb (is_blank p))
       (flat_map (fun pattern => re_findall pattern line) patterns)).

(** ** Line items and quote groups *)

Record item := {
  description : str;
  quantity : str;
  unitPrice : str;
  cost : str
}.

Record quote_group := {
  group_quantity : str;
  group_unitPrice : str;
  totalPrice : str;
  lineItems : list item
}.

(** The test every strategy applies before it keeps a line item:
    [description and quantity != "0" and unit_price != "0.00" and
    cost != "0.00"]. *)
Definition accepted (d q up c : str) : bool :=
  match d with [] => false | _ :: _ => true end &&
  negb (str_eqb q (u "0")) &&
  negb (str_eqb up (u "0.00")) &&
  negb (str_eqb c (u "0.00")).

(** [l[-1]] and [l[-2]] of a list with at least two elements. *)
Definition last_two (l : list str) : option (str * str) :=
  match rev l with
  | c :: up :: _ => Some (up, c)
  | _ => None
  end.

(** [sum(int(item['quantity']) for item in items)] *)
Fixpoint sum_quantities (items : list item) (acc : Z) : outcome Z :=
  match items with
  | [] => Returns acc
  | it :: rest => q <- py_int (quantity it) ;; sum_quantities rest (acc + q)%Z
  end.

(** [sum(float(item['cost']) for item in items)], from the integer 0:
    left to right, each addition rounded (from CPython 3.12 on the
    builtin also carries a compensation term, which changes nothing for
    up to two addends). *)
Fixpoint sum_costs (items : list item) (acc : float) : outcome float :=
  match items with
  | [] => Returns acc
  | it :: rest =>
      match py_float (cost it) with
      | Some c => sum_costs rest (fadd acc c)
      | None => Raises ValueError
      end
  end.

(** [total_cost / total_qty if total_qty > 0 else 0.0] *)
Definition average (total_cost : float) (total_qty : Z) : outcome float :=
  if (0 <? total_qty)%Z then fdiv_int total_cost total_qty else Returns zero.

Definition make_group (total_qty : Z) (total_cost avg : float)
    (items : list item) : quote_group :=
  {| group_quantity := py_str total_qty;
     group_unitPrice := format_2f avg;
     totalPrice := format_2f total_cost;
     lineItems := items |}.

(** ** [format_quote_groups] (source lines 335-364) *)

(** A [defaultdict(list)] keyed by quantity: keys in the order of their
    first insertion. *)
Definition groups := list (str * list item).

(** [quote_groups[k].append(x)] *)
Fixpoint append_to (k : str) (x : item) (g : groups) : groups :=
  match g with
  | [] => [(k, [x])]
  | (k', l) :: rest =>
      if str_eqb k k' then (k', l ++ [x]) :: rest
      else (k', l) :: append_to k x rest
  end.

(** The sort keys [int(x)], computed for every key in turn. *)
Fixpoint with_int_keys (g : groups) : outcome (list (Z * list item)) :=
  match g with
  | [] => Returns []
  | (k, l) :: rest =>
      n <- py_int k ;;
      more <- with_int_keys rest ;;
      Returns ((n, l) :: more)
  end.

Fixpoint insert_sorted (x : Z * list item) (l : list (Z * list item))
    : list (Z * list item) :=
  match l with
  | [] => [x]
  | y :: rest =>
      if (fst x <=? fst y)%Z then x :: l else y :: insert_sorted x rest
  end.

(** [sorted(..., key=int)]: stable. *)
Definition sort_by_key (l : list (Z * list item)) : list (Z * list item) :=
  fold_right insert_sorted [] l.

Definition format_group (items : list item) : outcome quote_group :=
  total_cost <- sum_costs items zero ;;
  total_qty <- sum_quantities items 0%Z ;;
  avg <- average total_cost total_qty ;;
  Returns (make_group total_qty total_cost avg items).

Fixpoint format_each (l : list (Z * list item)) : outcome (list quote_group) :=
  match l with
  | [] => Returns []
  | (_, items) :: rest =>
      g <- format_group items ;;
      more <- format_each rest ;;
      Returns (g :: more)
  end.

Definition format_quote_groups (quote_groups : groups)
    : outcome (list quote_group) :=
  keyed <- with_int_keys quote_groups ;;
  format_each (sort_by_key keyed).

(** The tail shared by [parse_sematool_format] (lines 226-240) and
    [parse_thirtytwo_machine_format] (lines 321-333): one group for all
    items, none when there is no item. *)
Definition consolidate (items : list item) : outcome (list quote_group) :=
  match items with
  | [] => Returns []
  | _ :: _ =>
      total_qty <- sum_quantities items 0%Z ;;
      total_cost <- sum_costs items zero ;;
      avg <- average total_cost total_qty ;;
      Returns [make_group total_qty total_cost avg items]
  end.

(** ** [parse_vtn_format] (source lines 60-134) *)

Definition vtn_keywords : list str :=
  [u "TOTAL"; u "SUBTOTAL"; u "MOQ"; u "ITEM CODE"; u "DESCRIPTION";
   u "UNIT PRICE"; u "AMOUNT"; u "QUOTE"].

(** [^\s*(\d+)\s+] *)
Definition leading_quantity : regex :=
  Seq [Bol; Star is_space; Group (Plus is_digit); Plus is_space].

(** [-?\$?[\d,]+\.?\d*] *)
Definition raw_price : regex :=
  Seq [Opt (Chr (ch "-")); Opt (Chr (ch "$")); Plus digit_or_comma;
       Opt (Chr (ch ".")); Star is_digit].

Definition code_char (c : char) : bool :=
  ascii_upper_letter c || ascii_digit c || (c =? 45)%N.

Definition code_char_no_hyphen (c : char) : bool :=
  ascii_upper_letter c || ascii_digit c.

(** [^[A-Z0-9-]+(?:\sREV\s[A-Z0-9]+)?(?:\s[A-Z0-9-]+)?\s+] *)
Definition item_code_pattern : regex :=
  Seq [Bol; Plus code_char;
       Opt (Seq [Cls is_space; Lit (u "REV"); Cls is_space;
                 Plus code_char_no_hyphen]);
       Opt (Seq [Cls is_space; Plus code_char]);
       Plus is_space].

(** The module [re] has no function [rsplit]: evaluating [re.rsplit]
    raises [AttributeError] before any argument is looked at. *)
Definition re_rsplit (pattern s : str) (maxsplit : Z) : outcome (list str) :=
  Raises AttributeError.

(** One round of the loop of lines 105-112. *)
Definition remove_price (temp_line p_val : str) : outcome str :=
  let raw_prices_in_line := re_findall raw_price temp_line in
  match rev raw_prices_in_line with
  | [] => Returns temp_line
  | r1 :: more =>
      if str_eqb (normalize_price r1) p_val
      then parts <- re_rsplit r1 temp_line 1 ;; Returns (strip (hd [] parts))
      else match more with
           | r2 :: _ =>
               if str_eqb (normalize_price r2) p_val
               then parts <- re_rsplit r2 temp_line 1 ;;
                    Returns (strip (hd [] parts))
               else Returns temp_line
           | [] => Returns temp_line
           end
  end.

Fixpoint remove_prices (temp_line : str) (p_vals : list str) : outcome str :=
  match p_vals with
  | [] => Returns temp_line
  | p_val :: rest => t <- remove_price temp_line p_val ;; remove_prices t rest
  end.

(** The body of the [try] of lines 83-129, for a stripped line with its
    prices; [Returns None] is [continue] or a rejected item. *)
Definition vtn_try (line : str) (line_prices : list str) : outcome (option item) :=
  match last_two line_prices with
  | None => Raises ValueError
  | Some (unit_price, cost) =>
      match re_match leading_quantity line with
      | None => Returns None
      | Some qty_match =>
          let qty_candidate := group line qty_match 1 in
          n <- py_int qty_candidate ;;
          let quantity := if (n <=? 10000)%Z then qty_candidate else u "1" in
          let temp_line := strip (skipn (pos (snd qty_match)) line) in
          temp_line <- remove_prices temp_line (rev line_prices) ;;
          let description := strip temp_line in
          let description := strip (re_sub item_code_pattern description) in
          if accepted description quantity unit_price cost
          then Returns (Some {| description := description;
                                quantity := quantity;
                                unitPrice := unit_price;
                                cost := cost |})
          else Returns None
      end
  end.

(** One pass of the loop of lines 71-131: the item the line adds, if any. *)
Definition vtn_line (raw_line : str) : option item :=
  let line := strip raw_line in
  match line with
  | [] => None
  | _ :: _ =>
      if str_in (upper line) vtn_keywords then None
      else
        let line_prices := extract_prices_from_line line in
        if (List.length line_prices <? 2)%nat then None
        else catch (vtn_try line line_prices) None
  end.

Fixpoint vtn_groups (lines : list str) (quote_groups : groups) : groups :=
  match lines with
  | [] => quote_groups
  | line :: rest =>
      match vtn_line line with
      | Some it => vtn_groups rest (append_to (quantity it) it quote_groups)
      | None => vtn_groups rest quote_groups
      end
  end.

Definition parse_vtn_format (lines : list str) : outcome (list quote_group) :=
  format_quote_groups (vtn_groups lines []).

(** ** [parse_sematool_format] (source lines 136-240) *)

Definition sematool_headers : list str :=
  [u "item"; u "description"; u "quantity"; u "price"; u "amount"].

(** [any(header in line.lower() for header in [...])] *)
Definition is_sematool_header (line : str) : bool :=
  existsb (fun header => contains header (lower line)) sematool_headers.

(** The lines after the first one that satisfies [p]; [None] when no
    line does. *)
Fixpoint after_first (p : str -> bool) (lines : list str) : option (list str) :=
  match lines with
  | [] => None
  | line :: rest => if p line then Some rest else after_first p rest
  end.

(** [\b(\d+)\b] *)
Definition standalone_number : regex := Seq [WordB; Group (Plus is_digit); WordB].

(** [^\s*\d+\s*] *)
Definition leading_item_number : regex :=
  Seq [Bol; Star is_space; Plus is_digit; Star is_space].

(** [\s*/EA|\s*/EACH] under [re.IGNORECASE] *)
Definition unit_marker : regex :=
  Alt (Seq [Star is_space; LitI (u "/EA")])
      (Seq [Star is_space; LitI (u "/EACH")]).

(** [p_val.replace('.00', '')] *)
Definition price_digits (p_val : str) : str := replace (u ".00") [] p_val.

(** Lines 180-183: cut the first occurrence of the price's digits. *)
Definition cut_price (temp : str) (p_val : str) : str :=
  match re_search (Lit (price_digits p_val)) temp with
  | Some f => firstn (fst f) temp ++ skipn (pos (snd f)) temp
  | None => temp
  end.

(** Line 201 *)
Definition cut_price_ignorecase (temp : str) (p_val : str) : str :=
  re_sub1 (LitI (price_digits p_val)) temp.

(** The body of the [try] of lines 170-222. *)
Definition sematool_try (line : str) (line_prices : list str)
    : outcome (option item) :=
  match last_two line_prices with
  | None => Raises ValueError
  | Some (unit_price, cost) =>
      let temp_line_for_qty := fold_left cut_price line_prices line in
      let potential_quantities := re_findall1 standalone_number temp_line_for_qty in
      quantity <-
        match rev potential_quantities with
        | [] => Returns (u "1")
        | qty_candidate :: _ =>
            n <- py_int qty_candidate ;;
            Returns (if (n <=? 10000)%Z then qty_candidate else u "1")
        end ;;
      let temp_line := fold_left cut_price_ignorecase line_prices line in
      let temp_line := re_sub1 (Seq [WordB; Lit quantity; WordB]) temp_line in
      let temp_line := re_sub1 leading_item_number temp_line in
      let description := strip temp_line in
      let description := strip (re_sub unit_marker description) in
      if accepted description quantity unit_price cost
      then Returns (Some {| description := description;
                            quantity := quantity;
                            unitPrice := unit_price;
                            cost := cost |})
      else Returns None
  end.

(** The loop of lines 157-224 over the rows after the header. *)
Fixpoint sematool_rows (rows : list str) : list item :=
  match rows with
  | [] => []
  | raw_line :: rest =>
      let line := strip raw_line in
      match line with
      | [] => sematool_rows rest
      | _ :: _ =>
          if contains (u "total:") (lower line) then []
          else
            let line_prices := extract_prices_from_line line in
            if (List.length line_prices <? 2)%nat then sematool_rows rest
            else match catch (sematool_try line line_prices) None with
                 | Some it => it :: sematool_rows rest
                 | None => sematool_rows rest
                 end
      end
  end.

Definition parse_sematool_format (lines : list str) : outcome (list quote_group) :=
  match after_first is_sematool_header lines with
  | None => Returns []
  | Some rows => consolidate (sematool_rows rows)
  end.

(** ** [parse_thirtytwo_machine_format] (source lines 242-333) *)

(** [all(h in line.lower() for h in [...])] *)
Definition is_thirtytwo_header (line : str) : bool :=
  forallb (fun h => contains h (lower line))
    [u "description"; u "qty"; u "rate"; u "total"].

(** With Q for the double quote character and P for [raw_price]
    (its sign written [[\-]?] in the source):
    [(\d+)\s*Q?,\s*Q?(P)Q?,\s*Q?(P)Q?\s*$] *)
Definition line_item_end_pattern : regex :=
  Seq [Group (Plus is_digit); Star is_space; Opt (Chr 34%N); Chr (ch ",");
       Star is_space; Opt (Chr 34%N); Group raw_price; Opt (Chr 34%N);
       Chr (ch ","); Star is_space; Opt (Chr 34%N); Group raw_price;
       Opt (Chr 34%N); Star is_space; Eol].

(** [[\$]?[\d,]+\.\d{2}] and [[\$]?[\d,]+] *)
Definition total_price_decimal : regex :=
  Seq [Opt (Chr (ch "$")); Plus digit_or_comma; Chr (ch ".");
       Cls is_digit; Cls is_digit].

Definition total_price_integer : regex :=
  Seq [Opt (Chr (ch "$")); Plus digit_or_comma].

(** [^Q|Q$], with Q for the double quote character, and [,\s*$] *)
Definition wrapping_quote : regex := Alt (Seq [Bol; Chr 34%N]) (Seq [Chr 34%N; Eol]).

Definition trailing_comma : regex := Seq [Chr (ch ","); Star is_space; Eol].

Definition is_found (o : option found) : bool :=
  match o with Some _ => true | None => false end.

(** The loop of lines 267-313, with the description lines gathered so
    far and the groups built so far. *)
Fixpoint thirtytwo_rows (rows : list str)
    (current_item_description_lines : list str) (quote_groups : groups)
    : groups :=
  match rows with
  | [] => quote_groups
  | raw_line :: rest =>
      let line := strip raw_line in
      match line with
      | [] => thirtytwo_rows rest current_item_description_lines quote_groups
      | _ :: _ =>
          if contains (u "total") (lower line) &&
             (is_found (re_search total_price_decimal line) ||
              is_found (re_search total_price_integer line))
          then quote_groups
          else
            match re_search line_item_end_pattern line with
            | Some m =>
                let quantity := group line m 1 in
                let unit_price := normalize_price (group line m 2) in
                let cost := normalize_price (group line m 3) in
                let description_on_current_line := strip (firstn (fst m) line) in
                let buffer :=
                  match description_on_current_line with
                  | [] => current_item_description_lines
                  | _ :: _ => current_item_description_lines ++
                              [description_on_current_line]
                  end in
                let description := strip (join (u " ") buffer) in
                let description := strip (re_sub wrapping_quote description) in
                let description := strip (re_sub trailing_comma description) in
                thirtytwo_rows rest []
                  (if accepted description quantity unit_price cost
                   then append_to quantity
                          {| description := description;
                             quantity := quantity;
                             unitPrice := unit_price;
                             cost := cost |} quote_groups
                   else quote_groups)
            | None =>
                thirtytwo_rows rest (current_item_description_lines ++ [line])
                  quote_groups
            end
      end
  end.

Definition parse_thirtytwo_machine_format (lines : list str)
    : outcome (list quote_group) :=
  match after_first is_thirtytwo_header lines with
  | None => Returns []
  | Some rows =>
      let quote_groups := thirtytwo_rows rows [] [] in
      consolidate (flat_map snd quote_groups)
  end.

(** ** [detect_format_and_parse] (source lines 366-394) *)

Definition is_empty {A} (l : list A) : bool :=
  match l with [] => true | _ :: _ => false end.

Definition detect_format_and_parse (lines : list str)
    : outcome (list quote_group) :=
  let text_content := upper (join (u " ") lines) in
  if contains (u "VTN MANUFACTURING") text_content
  then parse_vtn_format lines
  else if contains (u "SEMATOOL") text_content
  then parse_sematool_format lines
  else if contains (u "THIRTY-TWO MACHINE") text_content ||
          contains (u "32 MACHINE+DESIGN") text_content
  then parse_thirtytwo_machine_format lines
  else
    result <- parse_vtn_format lines ;;
    result <- (if is_empty result then parse_sematool_format lines
               else Returns result) ;;
    if is_empty result then parse_thirtytwo_machine_format lines
    else Returns result.

(** The engine's entry point. *)
Definition parse (lines : list str) : outcome (list quote_group) :=
  detect_format_and_parse lines.

(** ** The documents of the scenarios *)

Definition scenario1 : list str :=
  [u "VTN MANUFACTURING"; u "10 ABC123 Widget A 12.50 125.00"].

Definition scenario2 : list str :=
  [u "Item Description Quantity Price Amount";
   u "1 Bracket 5 $3.00 $15.00";
   u "Total: $15.00"].

Definition euro : char := 8364%N.

(** Two blocks of Strategy C, with costs 0.06 and 0.01. *)
Definition two_block_document : list str :=
  [u "THIRTY-TWO MACHINE"; u "Description Qty Rate Total";
   u "Part A"; u "1, 0.06, 0.06"; u "Part B"; u "1, 0.01, 0.01"].

(** A document whose first line names one column only. *)
Definition one_column_document : list str := [u "Price"; u "Bolt 2 3"].

(** ** Vocabulary of the properties *)

(** The offsets at which matches start. *)
Definition starts (l : list found) : list nat := map fst l.

Fixpoint nondecreasing (l : list nat) : bool :=
  match l with
  | a :: (b :: _) as t => (a <=? b)%nat && nondecreasing t
  | _ => true
  end.

(** [g] starts after [f] and does not overlap it. *)
Definition apart (f g : found) : Prop :=
  (fst f < fst g)%nat /\ (pos (snd f) <= fst g)%nat.

(** Matches that follow one another in the line. *)
Definition left_to_right (l : list found) : Prop := StronglySorted apart l.

(** The header test as the specification words it: all five column
    names. *)
Definition has_all_headers (line : str) : bool :=
  forallb (fun header => contains header (lower line)) sematool_headers.

(** The unit price as the specification words it: the group's total
    price divided by the group's quantity, to two decimals. *)
Definition spec_unit_price (g : quote_group) : outcome str :=
  q <- py_int (group_quantity g) ;;
  if (0 <? q)%Z
  then match py_float (totalPrice g) with
       | Some t => x <- fdiv_int t q ;; Returns (format_2f x)
       | None => Raises ValueError
       end
  else Returns (u "0.00").

(** What the aggregation makes of a group's line items: the sums are
    the floating-point sum of the costs and the integer sum of the
    quantities, and the unit price is their quotient. *)
Definition consistent (g : quote_group) : Prop :=
  exists (total_qty : Z) (total_cost : float),
    sum_quantities (lineItems g) 0%Z = Returns total_qty /\
    sum_costs (lineItems g) zero = Returns total_cost /\
    group_quantity g = py_str total_qty /\
    totalPrice g = format_2f total_cost /\
    ((0 < total_qty)%Z ->
       exists avg, fdiv_int total_cost total_qty = Returns avg /\
                   group_unitPrice g = format_2f avg) /\
    ((total_qty <= 0)%Z -> group_unitPrice g = u "0.00").

(** The finite binary64 values, in units: at most 53 significant bits,
    below 2^1024. *)
Definition representable (v : Z) : Prop :=
  exists m g, (v = m * 2 ^ g /\ 0 <= m < 2 ^ 53 /\ 0 <= g <= 2045)%Z.

(** The line item passed the test of [accepted]. *)
Definition passed_test (it : item) : Prop :=
  accepted (description it) (quantity it) (unitPrice it) (cost it) = true.

(** All the items of all the groups of a [defaultdict]. *)
Definition all_passed (g : groups) : Prop :=
  Forall (fun kv => Forall passed_test (snd kv)) g.

(** All the items of a quote group. *)
Definition items_passed (g : quote_group) : Prop :=
  Forall passed_test (lineItems g).

(** The floats that exist. *)
Definition valid_float (x : float) : Prop :=
  match x with
  | Finite _ v => representable v
  | _ => True
  end.

(** [digits_value], started from an accumulator. *)
Definition dv (acc : Z) (s : str) : Z :=
  fold_left (fun acc c => 10 * acc + (Z.of_N c - 48))%Z s acc.

(** The characters of a formatted finite float. *)
Definition plain (c : char) : bool :=
  ascii_digit c || (c =? 46)%N || (c =? 45)%N.

(** The text of a price with two decimals. *)
Definition two_decimals (neg : bool) (ds : str) (d1 d2 : char) : str :=
  (if neg then u "-" else []) ++ ds ++ u "." ++ [d1; d2].

(** The text that [normalize_price] hands to [float] (before it splits
    off the sign): no currency symbol, no whitespace, no comma. *)
Definition cleaned_text (s : str) : str :=
  filter (fun c => negb (c =? 44)%N)
    (filter (fun c => negb (currency_or_space c)) s).

(** The text of [k] hundredths, without leading zeros. *)
Definition price_text (neg : bool) (k : Z) : str :=
  two_decimals neg (dec (k / 100)) (digit_char (k / 10 mod 10))
    (digit_char (k mod 10)).

(** ** [extract_text_from_pdf] and [process_single_pdf]
    (source lines 396-455) *)

(** [s.split(sep)] for a separator of one character. *)
Fixpoint split (sep : char) (s : str) : list str :=
  match s with
  | [] => [[]]
  | c :: t =>
      if (c =? sep)%N then [] :: split sep t
      else match split sep t with
           | l :: ls => (c :: l) :: ls
           | [] => [[c]]
           end
  end.

(** What the outside world answers: whether a path exists
    ([os.path.exists]), and the text of each page of the document at a
    path ([fitz.open], [page.get_text()]), [None] when opening or
    reading raises. *)
Record world := {
  path_exists : str -> bool;
  page_texts : str -> option (list str)
}.

Definition extract_text_from_pdf (w : world) (pdf_path : str)
    : list str * bool :=
  match page_texts w pdf_path with
  | Some pages => (split 10%N (List.concat pages), true)
  | None => ([], false)
  end.

Record result := {
  file : str;
  success : bool;
  error : option str;
  quotes : list quote_group
}.

(** The progress messages of [verbose] are left out. *)
Definition process_single_pdf (w : world) (pdf_path : str) : outcome result :=
  if negb (path_exists w pdf_path)
  then Returns {| file := pdf_path; success := false;
                  error := Some (u "File not found"); quotes := [] |}
  else
    let (lines, extraction_success) := extract_text_from_pdf w pdf_path in
    if negb extraction_success
    then Returns {| file := pdf_path; success := false;
                    error := Some (u "Could not extract text from PDF");
                    quotes := [] |}
    else
      parsed_data <- detect_format_and_parse lines ;;
      if is_empty parsed_data
      then Returns {| file := pdf_path; success := false;
                      error := Some (u "No quote data could be extracted");
                      quotes := [] |}
      else Returns {| file := pdf_path; success := true;
                      error := None; quotes := parsed_data |}.

(** The items that Strategy A accepts, in the order of the lines. *)
Fixpoint vtn_items (lines : list str) : list item :=
  match lines with
  | [] => []
  | line :: rest =>
      match vtn_line line with
      | Some it => it :: vtn_items rest
      | None => vtn_items rest
      end
  end.

(** The line stops Strategy B: it contains [total:]. *)
Definition is_total_row (raw_line : str) : bool :=
  contains (u "total:") (lower (strip raw_line)).


(** A quantity text that [int] reads, with a value of at most 10000. *)
Definition capped_quantity (it : item) : Prop :=
  exists n, py_int (quantity it) = Returns n /\ (n <= 10000)%Z.

(** A cost text that [float] reads. *)
Definition readable_cost (it : item) : Prop :=
  exists x, py_float (cost it) = Some x.

(** The items of one tier: those whose quantity text is [k]. *)
Definition tier_items (k : str) (items : list item) : list item :=
  filter (fun it => str_eqb (quantity it) k) items.

(** No item of [g1] has a larger quantity than an item of [g2]. *)
Definition tier_before (g1 g2 : quote_group) : Prop :=
  forall it1 it2 n1 n2,
    In it1 (lineItems g1) -> In it2 (lineItems g2) ->
    py_int (quantity it1) = Returns n1 ->
    py_int (quantity it2) = Returns n2 ->
    (n1 <= n2)%Z.

(** [quote_groups[item.quantity].append(item)] *)
Definition add_item (g : groups) (it : item) : groups :=
  append_to (quantity it) it g.

(** The groups hold the items, tier by tier: the keys are distinct,
    each key holds the items with that quantity text, in their order,
    and every item has its key. *)
Definition grouped (g : groups) (items : list item) : Prop :=
  NoDup (map fst g) /\
  Forall (fun kv => snd kv = tier_items (fst kv) items /\ snd kv <> []) g /\
  (forall it, In it items -> In (quantity it) (map fst g)).

(** A text that [float] reads. *)
Definition readable_text (p : str) : Prop := exists x, py_float p = Some x.

(** The order of the sort keys. *)
Definition key_le (a b : Z * list item) : Prop := (fst a <= fst b)%Z.

(** An outcome that is a value, or the overflow of a quantity of at
    least 2^1023, which [bound] items of at most 10000 each can reach. *)
Definition returns_or_overflows (A : Type) (o : outcome A) (bound : nat) : Prop :=
  match o with
  | Returns _ => True
  | Raises e => e = OverflowError /\ (2 ^ 1023 <= 10000 * Z.of_nat bound)%Z
  end.

(** [s'] is what is left of [s] after some of its characters. *)
Definition suffix_of (s' s : str) : Prop := exists w, s = w ++ s'.

(** No character of the text is in the class. *)
Definition without (p : char -> bool) (s : str) : Prop :=
  Forall (fun c => p c = false) s.

(** The pattern cannot match in a text without characters of the
    class. *)
Definition needs (p : char -> bool) (r : regex) : Prop :=
  forall st k, without p (rest st) -> run r st k = None.


(** ** Documents for the further properties *)

(** Three lines that Strategy A accepts, in two tiers. *)
Definition tiered_document : list str :=
  [u "VTN MANUFACTURING"; u "5 Widget 5.5"; u "2 Bolt 7.5"; u "5 Nut 6.5"].

(** The one-column document with a total row and one more row after
    it. *)
Definition document_with_total : list str :=
  [u "Price"; u "Bolt 2 3"; u "Total: 3"; u "Nut 4 5"].


(** A line of Strategy A with a leading integer above 10000 and two
    prices. *)
Definition over_limit_document : list str :=
  [u "VTN MANUFACTURING"; u "20000 Widget 7 9"].

(** One digit more than [int] reads. *)
Definition long_integer : str := repeat 49%N (S int_max_str_digits).

(** A document without any number. *)
Definition wordy_document : list str :=
  [u "VTN MANUFACTURING"; u "Item Description"; u "Widget"].

(** A world in which every path exists and leads to the same page. *)
Definition one_page_world (page : str) : world :=
  {| path_exists := fun _ => true;
     page_texts := fun _ => Some [page] |}.

(** The page of [one_column_document]. *)
Definition one_column_page : str := u "Price" ++ [10%N] ++ u "Bolt 2 3".

(** A page without any number. *)
Definition wordy_page : str := u "Item Description" ++ [10%N] ++ u "Widget".

End Engine.

(** * Properties *)

(** Closes a conjunction of equations between closed terms. *)
Ltac evaluate :=
  repeat match goal with |- _ /\ _ => split end; vm_compute; reflexivity.

(** ** The scenarios, evaluated *)

(** The prices the scanner finds in the line of scenario 1: the two
    decimal prices, then every digit run once more, the last of them the
    cents of the last price. *)
Lemma scenario1_prices (U : unicode_ext) :
  extract_prices_from_line U (u "10 ABC123 Widget A 12.50 125.00") =
  [u "12.50"; u "125.00"; u "10.00"; u "123.00"; u "12.00"; u "50.00";
   u "125.00"; u "0.00"].
Proof. vm_compute. reflexivity. Qed.

(** The [try] block of Strategy A fails on the line of scenario 1: the
    price removal reaches [re.rsplit]. *)
Lemma scenario1_try_raises (U : unicode_ext) :
  vtn_try U (u "10 ABC123 Widget A 12.50 125.00")
    (extract_prices_from_line U (u "10 ABC123 Widget A 12.50 125.00")) =
  Raises AttributeError.
Proof. vm_compute. reflexivity. Qed.

(** C1 (code evaluated at the scenario): on the document of scenario 1
    [parse] returns no quote group at all, not the one group the
    scenario promises. *)
Theorem scenario1_returns_no_group (U : unicode_ext) : parse U scenario1 = Returns [].
Proof. vm_compute. reflexivity. Qed.

(** The row of scenario 2 as Strategy B sees it: the cost it takes is the
    cents of the last price, so the row is rejected. *)
Lemma scenario2_row (U : unicode_ext) :
  last_two (extract_prices_from_line U (u "1 Bracket 5 $3.00 $15.00")) =
    Some (u "15.00", u "0.00") /\
  sematool_rows U (tl scenario2) = [].
Proof. evaluate. Qed.

(** C2 (code evaluated at the scenario): on the document of scenario 2
    [parse] returns no quote group: each of the three strategies of the
    fallback chain comes back empty. *)
Theorem scenario2_returns_no_group (U : unicode_ext) :
  parse_vtn_format U scenario2 = Returns [] /\
  parse_sematool_format U scenario2 = Returns [] /\
  parse_thirtytwo_machine_format U scenario2 = Returns [] /\
  parse U scenario2 = Returns [].
Proof. evaluate. Qed.

(** C4 (code evaluated at a failing input): a line whose leading
    quantity is written [00] yields a line item of quantity zero. *)
Theorem zero_quantity_item_accepted (U : unicode_ext) :
  parse U [u "VTN MANUFACTURING"; u "00 Widget 5.5"] =
    Returns [ {| group_quantity := u "0";
                 group_unitPrice := u "0.00";
                 totalPrice := u "5.00";
                 lineItems := [ {| description := u "Widget 5.5";
                                   quantity := u "00";
                                   unitPrice := u "5.00";
                                   cost := u "5.00" |} ] |} ] /\
  py_int U (u "00") = Returns 0%Z.
Proof. evaluate. Qed.

(** The line with the leading integer 20000 as Strategy A sees it: it
    has three prices, the text after the integer still holds the raw
    prices 7 and 9, the last of which normalizes to the cost, and the
    price removal reaches [re.rsplit]. *)
Lemma over_limit_line (U : unicode_ext) :
  extract_prices_from_line U (u "20000 Widget 7 9") =
    [u "20000.00"; u "7.00"; u "9.00"] /\
  re_findall U (raw_price U) (u "Widget 7 9") = [u "7"; u "9"] /\
  vtn_try U (u "20000 Widget 7 9")
    (extract_prices_from_line U (u "20000 Widget 7 9")) =
    Raises AttributeError.
Proof. evaluate. Qed.

(** C10 (code evaluated at a failing input): the line [20000 Widget 7 9]
    starts with an integer above 10000, has its two prices 7.00 and
    9.00, and the item the claim describes (description [Widget],
    quantity [1]) passes the rejection test; yet Strategy A skips the
    line, and [parse] returns no group. *)
Theorem over_limit_line_dropped (U : unicode_ext) :
  py_int U (u "20000") = Returns 20000%Z /\
  last_two (extract_prices_from_line U (u "20000 Widget 7 9")) =
    Some (u "7.00", u "9.00") /\
  accepted (u "Widget") (u "1") (u "7.00") (u "9.00") = true /\
  vtn_line U (u "20000 Widget 7 9") = None /\
  parse_vtn_format U over_limit_document = Returns [] /\
  parse U over_limit_document = Returns [].
Proof. evaluate. Qed.

(** ** [normalize_price] *)

(** C7 (code evaluated at failing inputs): the words that [float] reads
    as infinities and not-a-number come back as they are, without a
    decimal point and without two decimals; so does a digit string too
    large for a float. *)
Theorem normalize_price_not_decimal (U : unicode_ext) :
  normalize_price U (u "inf") = u "inf" /\
  normalize_price U (u "-Infinity") = u "-inf" /\
  normalize_price U (u "nan") = u "nan" /\
  normalize_price U (u "1e309") = u "inf" /\
  normalize_price U (repeat (ch "9") 400) = u "inf".
Proof. evaluate. Qed.

(** C8: the five equations of the format coverage. *)
Theorem normalize_price_examples (U : unicode_ext) :
  normalize_price U (u "$2,000.00") = u "2000.00" /\
  normalize_price U (u " " ++ [euro] ++ u " 1234 ") = u "1234.00" /\
  normalize_price U (u "-$5.50") = u "-5.50" /\
  normalize_price U (u "abc") = u "0.00" /\
  normalize_price U (u "") = u "0.00".
Proof. evaluate. Qed.

(** The special values of [float] pass through [normalize_price]. *)
Lemma normalize_specials (U : unicode_ext) :
  normalize_price U (u "inf") = u "inf" /\
  normalize_price U (u "-inf") = u "-inf" /\
  normalize_price U (u "nan") = u "nan".
Proof. evaluate. Qed.

Lemma format_2f_zero : format_2f zero = u "0.00".
Proof. vm_compute. reflexivity. Qed.

Section Properties.

Variable U : unicode_ext.

(** ** The price scanner *)

Lemma match_at_start (r : regex) n pv s f :
  match_at U r n pv s = Some f -> fst f = n.
Proof.
  unfold match_at. destruct (run U r _ Some); intros H; inversion H. reflexivity.
Qed.

Lemma scan_from (r : regex) s :
  forall n pv skip,
    Forall (fun f => (n + skip <= fst f)%nat) (scan U r n pv s skip).
Proof.
  induction s as [|c t IH]; intros n pv skip; simpl.
  - destruct skip; [|constructor].
    destruct (match_at U r n pv []) eqn:E; constructor; [|constructor].
    apply match_at_start in E. lia.
  - destruct skip as [|sk].
    + destruct (match_at U r n pv (c :: t)) eqn:E.
      * constructor.
        -- apply match_at_start in E. lia.
        -- eapply Forall_impl; [|apply IH]. simpl. intros g Hg. lia.
      * eapply Forall_impl; [|apply IH]. simpl. intros g Hg. lia.
    + eapply Forall_impl; [|apply IH]. simpl. intros g Hg. lia.
Qed.

Lemma scan_left_to_right (r : regex) s :
  forall n pv skip, left_to_right (scan U r n pv s skip).
Proof.
  unfold left_to_right.
  induction s as [|c t IH]; intros n pv skip; simpl.
  - destruct skip; [|constructor].
    destruct (match_at U r n pv []); repeat constructor.
  - destruct skip as [|sk]; [|apply IH].
    destruct (match_at U r n pv (c :: t)) eqn:E; [|apply IH].
    constructor; [apply IH|].
    apply match_at_start in E.
    eapply Forall_impl; [|apply scan_from].
    simpl. intros g Hg. unfold apart. lia.
Qed.

Lemma finditer_left_to_right (r : regex) s : left_to_right (re_finditer U r s).
Proof. apply scan_left_to_right. Qed.

(** C5, as the code has it: the scanner returns the normalized matches
    of the decimal pattern, left to right, followed by the normalized
    matches of the integer pattern, left to right; within each of the
    two runs the matches follow one another in the line without
    overlap. *)
Theorem prices_pattern_by_pattern (line : str) :
  extract_prices_from_line U line =
    map (normalize_price U)
      (filter (fun p => negb (is_blank p))
         (map (matched line)
            (re_finditer U (price_pattern_decimal U) line ++
             re_finditer U (price_pattern_integer U) line))) /\
  price_matches U line =
    re_finditer U (price_pattern_decimal U) line ++
    re_finditer U (price_pattern_integer U) line /\
  left_to_right (re_finditer U (price_pattern_decimal U) line) /\
  left_to_right (re_finditer U (price_pattern_integer U) line).
Proof.
  repeat split; try apply finditer_left_to_right.
  - unfold extract_prices_from_line, patterns, re_findall. simpl.
    rewrite app_nil_r, map_app. reflexivity.
  - unfold price_matches, patterns. simpl. rewrite app_nil_r. reflexivity.
Qed.

(** ** Strategy B and its header *)

Lemma after_first_none (p : str -> bool) lines :
  (forall line, In line lines -> p line = false) ->
  after_first p lines = None.
Proof.
  induction lines as [|l rest IH]; intros H; simpl; [reflexivity|].
  rewrite (H l) by (left; reflexivity).
  apply IH. intros line Hin. apply H. right. exact Hin.
Qed.

Lemma after_first_some (p : str -> bool) before line rows :
  (forall l, In l before -> p l = false) ->
  p line = true ->
  after_first p (before ++ line :: rows) = Some rows.
Proof.
  induction before as [|l rest IH]; intros H Hp; simpl.
  - rewrite Hp. reflexivity.
  - rewrite (H l) by (left; reflexivity).
    apply IH; [|exact Hp]. intros l' Hin. apply H. right. exact Hin.
Qed.

(** C6, as the code has it: Strategy B returns no group for a document
    none of whose lines contains, case-insensitively, at least one of
    the five column names; and the rows it processes are the lines after
    the first line that contains one of them. *)
Theorem sematool_header_is_any_column_name (lines : list str) :
  ((forall line, In line lines -> is_sematool_header U line = false) ->
   parse_sematool_format U lines = Returns []) /\
  (forall before header rows,
     lines = before ++ header :: rows ->
     (forall line, In line before -> is_sematool_header U line = false) ->
     is_sematool_header U header = true ->
     parse_sematool_format U lines = consolidate U (sematool_rows U rows)).
Proof.
  split.
  - intros H. unfold parse_sematool_format.
    rewrite after_first_none by exact H. reflexivity.
  - intros before header rows -> Hb Hh. unfold parse_sematool_format.
    rewrite after_first_some by assumption. reflexivity.
Qed.

(** ** Aggregation *)

Lemma make_group_consistent items total_qty total_cost avg :
  sum_quantities U items 0%Z = Returns total_qty ->
  sum_costs U items zero = Returns total_cost ->
  average total_cost total_qty = Returns avg ->
  consistent U (make_group total_qty total_cost avg items).
Proof.
  intros Hq Hc Ha. exists total_qty, total_cost. simpl.
  repeat split; try assumption.
  - intros Hpos. exists avg. split; [|reflexivity].
    unfold average in Ha.
    destruct (0 <? total_qty)%Z eqn:E; [exact Ha|].
    apply Z.ltb_ge in E. lia.
  - intros Hle. unfold average in Ha.
    destruct (0 <? total_qty)%Z eqn:E.
    + apply Z.ltb_lt in E. lia.
    + inversion Ha. reflexivity.
Qed.

Lemma format_group_consistent items g :
  format_group U items = Returns g -> consistent U g.
Proof.
  unfold format_group, bind.
  destruct (sum_costs U items zero) as [c|] eqn:Hc; [|discriminate].
  destruct (sum_quantities U items 0%Z) as [q|] eqn:Hq; [|discriminate].
  destruct (average c q) as [a|] eqn:Ha; [|discriminate].
  intros H. inversion H. apply make_group_consistent; assumption.
Qed.

Lemma format_each_consistent l :
  forall gs, format_each U l = Returns gs -> Forall (consistent U) gs.
Proof.
  induction l as [|[k items] rest IH]; simpl; intros gs H.
  - inversion H. constructor.
  - unfold bind in H.
    destruct (format_group U items) as [g|] eqn:Hg; [|discriminate].
    destruct (format_each U rest) as [more|] eqn:Hm; [|discriminate].
    inversion H. constructor.
    + eapply format_group_consistent. exact Hg.
    + apply IH. reflexivity.
Qed.

Lemma format_quote_groups_consistent quote_groups gs :
  format_quote_groups U quote_groups = Returns gs -> Forall (consistent U) gs.
Proof.
  unfold format_quote_groups, bind.
  destruct (with_int_keys U quote_groups); [|discriminate].
  apply format_each_consistent.
Qed.

Lemma consolidate_consistent items gs :
  consolidate U items = Returns gs -> Forall (consistent U) gs.
Proof.
  unfold consolidate, bind. destruct items as [|it rest].
  - intros H. inversion H. constructor.
  - destruct (sum_quantities U (it :: rest) 0%Z) as [q|] eqn:Hq; [|discriminate].
    destruct (sum_costs U (it :: rest) zero) as [c|] eqn:Hc; [|discriminate].
    destruct (average c q) as [a|] eqn:Ha; [|discriminate].
    intros H. inversion H. constructor; [|constructor].
    apply make_group_consistent; assumption.
Qed.

Lemma parse_vtn_consistent lines gs :
  parse_vtn_format U lines = Returns gs -> Forall (consistent U) gs.
Proof. apply format_quote_groups_consistent. Qed.

Lemma parse_sematool_consistent lines gs :
  parse_sematool_format U lines = Returns gs -> Forall (consistent U) gs.
Proof.
  unfold parse_sematool_format.
  destruct (after_first (is_sematool_header U) lines).
  - apply consolidate_consistent.
  - intros H. inversion H. constructor.
Qed.

Lemma parse_thirtytwo_consistent lines gs :
  parse_thirtytwo_machine_format U lines = Returns gs -> Forall (consistent U) gs.
Proof.
  unfold parse_thirtytwo_machine_format.
  destruct (after_first (is_thirtytwo_header U) lines).
  - apply consolidate_consistent.
  - intros H. inversion H. constructor.
Qed.

(** C3, as the code has it: in every quote group that [parse] returns,
    under whichever strategy, the quantity is the sum of the line
    items' quantities, the total price is the floating-point sum of the
    line items' costs written with two decimals, and the unit price is
    that same unrounded sum divided by the quantity, written with two
    decimals, when the quantity is positive, and [0.00] otherwise. *)
Theorem parsed_groups_consistent (lines : list str) (gs : list quote_group) :
  parse U lines = Returns gs -> Forall (consistent U) gs.
Proof.
  unfold parse, detect_format_and_parse.
  destruct (contains (u "VTN MANUFACTURING") _); [apply parse_vtn_consistent|].
  destruct (contains (u "SEMATOOL") _); [apply parse_sematool_consistent|].
  destruct (_ || _); [apply parse_thirtytwo_consistent|].
  unfold bind.
  destruct (parse_vtn_format U lines) as [r1|] eqn:H1; [|discriminate].
  destruct (is_empty r1) eqn:E1.
  - destruct (parse_sematool_format U lines) as [r2|] eqn:H2; [|discriminate].
    destruct (is_empty r2).
    + apply parse_thirtytwo_consistent.
    + intros H. inversion H. subst. eapply parse_sematool_consistent. exact H2.
  - rewrite E1. intros H. inversion H. subst.
    eapply parse_vtn_consistent. exact H1.
Qed.

(** ** The rejection test *)

Lemma vtn_line_passed raw_line it :
  vtn_line U raw_line = Some it -> passed_test it.
Proof.
  unfold vtn_line.
  destruct (strip raw_line) as [|c0 t0]; [discriminate|].
  destruct (str_in _ vtn_keywords); [discriminate|].
  destruct (_ <? 2)%nat; [discriminate|].
  unfold vtn_try.
  destruct (last_two _) as [[up c]|]; [|discriminate].
  destruct (re_match U (leading_quantity U) (c0 :: t0)) as [m|]; [|discriminate].
  unfold bind.
  destruct (py_int U _) as [n|]; [|discriminate].
  destruct (remove_prices U _ _) as [t|]; [|discriminate].
  destruct (accepted _ _ _ _) eqn:E; simpl; intros H; inversion H.
  exact E.
Qed.

Lemma sematool_try_passed line line_prices it :
  sematool_try U line line_prices = Returns (Some it) -> passed_test it.
Proof.
  unfold sematool_try.
  destruct (last_two line_prices) as [[up c]|]; [|discriminate].
  unfold bind at 1.
  destruct (match rev _ with [] => _ | _ :: _ => _ end) as [q|]; [|discriminate].
  destruct (accepted _ _ _ _) eqn:E; intros H; inversion H. exact E.
Qed.

Lemma sematool_rows_passed rows : Forall passed_test (sematool_rows U rows).
Proof.
  induction rows as [|r rest IH]; simpl; [constructor|].
  destruct (strip r) as [|c0 t0]; [exact IH|].
  destruct (contains _ _); [constructor|].
  destruct (_ <? 2)%nat; [exact IH|].
  destruct (sematool_try U (c0 :: t0) _) as [[it|]|] eqn:E; simpl; try exact IH.
  constructor; [|exact IH]. eapply sematool_try_passed. exact E.
Qed.

Lemma append_to_passed k it g :
  passed_test it -> all_passed g -> all_passed (append_to k it g).
Proof.
  intros Hit. unfold all_passed.
  induction g as [|[k' l] rest IH]; simpl; intros Hg.
  - repeat constructor. exact Hit.
  - inversion Hg as [|? ? H1 H2]; subst.
    destruct (str_eqb k k').
    + constructor; [|exact H2]. simpl in *. apply Forall_app. split; [exact H1|].
      constructor; [exact Hit|constructor].
    + constructor; [exact H1|]. apply IH. exact H2.
Qed.

Lemma vtn_groups_passed lines :
  forall g, all_passed g -> all_passed (vtn_groups U lines g).
Proof.
  induction lines as [|l rest IH]; simpl; intros g Hg; [exact Hg|].
  destruct (vtn_line U l) as [it|] eqn:E; [|apply IH; exact Hg].
  apply IH. apply append_to_passed; [|exact Hg].
  eapply vtn_line_passed. exact E.
Qed.

Lemma thirtytwo_rows_passed rows :
  forall buffer g, all_passed g -> all_passed (thirtytwo_rows U rows buffer g).
Proof.
  induction rows as [|r rest IH]; intros buffer g Hg; [exact Hg|].
  cbn [thirtytwo_rows].
  destruct (strip r) as [|c0 t0]; [apply IH; exact Hg|].
  destruct (_ && _); [exact Hg|].
  destruct (re_search U (line_item_end_pattern U) (c0 :: t0)) as [m|];
    [|apply IH; exact Hg].
  apply IH.
  destruct (accepted _ _ _ _) eqn:E; [|exact Hg].
  apply append_to_passed; [exact E|exact Hg].
Qed.

Lemma consolidate_passed items gs :
  Forall passed_test items ->
  consolidate U items = Returns gs -> Forall items_passed gs.
Proof.
  intros Hi. unfold consolidate, bind. destruct items as [|it rest].
  - intros H. inversion H. constructor.
  - destruct (sum_quantities U (it :: rest) 0%Z); [|discriminate].
    destruct (sum_costs U (it :: rest) zero); [|discriminate].
    destruct (average _ _); [|discriminate].
    intros H. inversion H. constructor; [exact Hi|constructor].
Qed.

Lemma with_int_keys_passed g :
  forall keyed, with_int_keys U g = Returns keyed ->
    all_passed g -> Forall (fun kv => Forall passed_test (snd kv)) keyed.
Proof.
  induction g as [|[k l] rest IH]; simpl; intros keyed H Hg.
  - inversion H. constructor.
  - unfold bind in H.
    destruct (py_int U k); [|discriminate].
    destruct (with_int_keys U rest) as [more|]; [|discriminate].
    inversion H. inversion Hg; subst.
    constructor; [assumption|]. apply IH; [reflexivity|assumption].
Qed.

Lemma insert_sorted_passed x l :
  Forall passed_test (snd x) ->
  Forall (fun kv => Forall passed_test (snd kv)) l ->
  Forall (fun kv => Forall passed_test (snd kv)) (insert_sorted x l).
Proof.
  intros Hx. induction l as [|y rest IH]; simpl; intros Hl.
  - constructor; [exact Hx|constructor].
  - inversion Hl; subst.
    destruct (fst x <=? fst y)%Z.
    + constructor; [exact Hx|exact Hl].
    + constructor; [assumption|]. apply IH. assumption.
Qed.

Lemma sort_by_key_passed l :
  Forall (fun kv => Forall passed_test (snd kv)) l ->
  Forall (fun kv => Forall passed_test (snd kv)) (sort_by_key l).
Proof.
  unfold sort_by_key. induction l as [|x rest IH]; simpl; intros Hl.
  - constructor.
  - inversion Hl; subst. apply insert_sorted_passed; [assumption|].
    apply IH. assumption.
Qed.

Lemma format_each_passed l :
  forall gs, format_each U l = Returns gs ->
    Forall (fun kv => Forall passed_test (snd kv)) l -> Forall items_passed gs.
Proof.
  induction l as [|[k items] rest IH]; simpl; intros gs H Hl.
  - inversion H. constructor.
  - unfold bind in H. unfold format_group, bind in H.
    destruct (sum_costs U items zero); [|discriminate].
    destruct (sum_quantities U items 0%Z); [|discriminate].
    destruct (average _ _); [|discriminate].
    destruct (format_each U rest) as [more|]; [|discriminate].
    inversion H. inversion Hl; subst.
    constructor; [assumption|]. apply IH; [reflexivity|assumption].
Qed.

Lemma parse_vtn_passed lines gs :
  parse_vtn_format U lines = Returns gs -> Forall items_passed gs.
Proof.
  unfold parse_vtn_format, format_quote_groups, bind.
  destruct (with_int_keys U (vtn_groups U lines [])) as [keyed|] eqn:E; [|discriminate].
  intros H. eapply format_each_passed; [exact H|].
  apply sort_by_key_passed. eapply with_int_keys_passed; [exact E|].
  apply vtn_groups_passed. constructor.
Qed.

Lemma parse_sematool_passed lines gs :
  parse_sematool_format U lines = Returns gs -> Forall items_passed gs.
Proof.
  unfold parse_sematool_format.
  destruct (after_first (is_sematool_header U) lines).
  - apply consolidate_passed. apply sematool_rows_passed.
  - intros H. inversion H. constructor.
Qed.

Lemma parse_thirtytwo_passed lines gs :
  parse_thirtytwo_machine_format U lines = Returns gs -> Forall items_passed gs.
Proof.
  unfold parse_thirtytwo_machine_format.
  destruct (after_first (is_thirtytwo_header U) lines) as [rows|].
  - apply consolidate_passed.
    assert (H : all_passed (thirtytwo_rows U rows [] []))
      by (apply thirtytwo_rows_passed; constructor).
    unfold all_passed in H.
    induction (thirtytwo_rows U rows [] []) as [|[k l] rest IH]; simpl.
    + constructor.
    + inversion H; subst. apply Forall_app. split; [assumption|].
      apply IH. assumption.
  - intros H. inversion H. constructor.
Qed.

(** X1. The part of the rejection rule that holds: every line item of every
    group that [parse] returns has a non-empty description, a quantity
    other than the text [0], and a unit price and a cost other than the
    text [0.00]. *)
Lemma parsed_items_passed_test (lines : list str) (gs : list quote_group) :
  parse U lines = Returns gs -> Forall items_passed gs.
Proof.
  unfold parse, detect_format_and_parse.
  destruct (contains (u "VTN MANUFACTURING") _); [apply parse_vtn_passed|].
  destruct (contains (u "SEMATOOL") _); [apply parse_sematool_passed|].
  destruct (_ || _); [apply parse_thirtytwo_passed|].
  unfold bind.
  destruct (parse_vtn_format U lines) as [r1|] eqn:H1; [|discriminate].
  destruct (is_empty r1) eqn:E1.
  - destruct (parse_sematool_format U lines) as [r2|] eqn:H2; [|discriminate].
    destruct (is_empty r2).
    + apply parse_thirtytwo_passed.
    + intros H. inversion H. subst. eapply parse_sematool_passed. exact H2.
  - rewrite E1. intros H. inversion H. subst.
    eapply parse_vtn_passed. exact H1.
Qed.

(** ** Strategy A and the leading quantity *)

(** The price removal of lines 105-112 either leaves the text as it is
    or fails. *)
Lemma remove_price_unchanged temp_line p_val t :
  remove_price U temp_line p_val = Returns t -> t = temp_line.
Proof.
  unfold remove_price, re_rsplit, bind.
  destruct (rev (re_findall U (raw_price U) temp_line)) as [|r1 more].
  - intros H. inversion H. reflexivity.
  - destruct (str_eqb (normalize_price U r1) p_val); [discriminate|].
    destruct more as [|r2 more'].
    + intros H. inversion H. reflexivity.
    + destruct (str_eqb (normalize_price U r2) p_val); [discriminate|].
      intros H. inversion H. reflexivity.
Qed.

Lemma remove_prices_unchanged p_vals :
  forall temp_line t,
    remove_prices U temp_line p_vals = Returns t -> t = temp_line.
Proof.
  induction p_vals as [|p rest IH]; simpl; intros temp_line t H.
  - inversion H. reflexivity.
  - unfold bind in H.
    destruct (remove_price U temp_line p) as [t1|] eqn:E; [|discriminate].
    apply remove_price_unchanged in E. subst t1. apply IH. exact H.
Qed.

Lemma last_two_length l up c :
  last_two l = Some (up, c) -> (List.length l <? 2)%nat = false.
Proof.
  unfold last_two. intros H. rewrite <- (length_rev l).
  destruct (rev l) as [|a [|b r]]; try discriminate. reflexivity.
Qed.

(** The part of the default that holds.  In Strategy A, whatever item
    a line with a leading integer above 10000 yields has the default
    quantity [1]; and when the line has its two prices, the price
    removal does not fail and the rejection test passes, the line
    yields the item whose description is taken from the text after the
    leading integer and whose quantity is [1]. *)
Theorem over_limit_quantity_defaults_to_one
    (raw_line : str) (qty_match : found) (n : Z) :
  re_match U (leading_quantity U) (strip raw_line) = Some qty_match ->
  py_int U (group (strip raw_line) qty_match 1) = Returns n ->
  (10000 < n)%Z ->
  (forall it, vtn_line U raw_line = Some it -> quantity it = u "1") /\
  (forall unit_price cost temp_line,
     str_in (upper U (strip raw_line)) vtn_keywords = false ->
     last_two (extract_prices_from_line U (strip raw_line)) =
       Some (unit_price, cost) ->
     remove_prices U (strip (skipn (pos (snd qty_match)) (strip raw_line)))
       (rev (extract_prices_from_line U (strip raw_line))) = Returns temp_line ->
     accepted (strip (re_sub U item_code_pattern (strip temp_line)))
       (u "1") unit_price cost = true ->
     vtn_line U raw_line =
       Some {| description :=
                 strip (re_sub U item_code_pattern (strip temp_line));
               quantity := u "1";
               unitPrice := unit_price;
               cost := cost |}).
Proof.
  intros Hm Hn Hbig.
  assert (Hq : (n <=? 10000)%Z = false) by (apply Z.leb_gt; exact Hbig).
  split.
  - intros it. unfold vtn_line.
    destruct (strip raw_line) as [|c0 t0] eqn:Hline; [discriminate|].
    destruct (str_in _ vtn_keywords); [discriminate|].
    destruct (_ <? 2)%nat; [discriminate|].
    unfold vtn_try.
    destruct (last_two _) as [[up c]|]; [|discriminate].
    rewrite Hm. unfold bind at 1. rewrite Hn, Hq.
    unfold bind.
    destruct (remove_prices U _ _) as [t|]; [|discriminate].
    destruct (accepted _ _ _ _); simpl; intros H; inversion H. reflexivity.
  - intros unit_price cost temp_line Hk Hl Hr Ha. unfold vtn_line.
    destruct (strip raw_line) as [|c0 t0] eqn:Hline; [discriminate|].
    rewrite Hk, (last_two_length _ Hl).
    unfold vtn_try. rewrite Hl, Hm.
    unfold bind at 1. rewrite Hn, Hq.
    unfold bind. rewrite Hr, Ha. reflexivity.
Qed.

Local Open Scope Z_scope.

(** ** Rounding *)

Lemma rne_cases p q :
  0 <= p -> 0 < q ->
  exists d r, p = q * d + r /\ 0 <= r < q /\ 0 <= d /\
    ((2 * r < q /\ rne p q = d) \/
     (q < 2 * r /\ rne p q = d + 1) \/
     (2 * r = q /\ Z.even d = true /\ rne p q = d) \/
     (2 * r = q /\ Z.even d = false /\ rne p q = d + 1)).
Proof.
  intros Hp Hq. exists (p / q), (p mod q).
  pose proof (Z.div_mod p q ltac:(lia)) as Hdm.
  pose proof (Z.mod_pos_bound p q Hq) as Hr.
  pose proof (Z.div_pos p q Hp Hq) as Hd.
  repeat split; try lia.
  unfold rne.
  destruct (2 * (p mod q) <? q) eqn:E1.
  - apply Z.ltb_lt in E1. left. split; [lia|reflexivity].
  - apply Z.ltb_ge in E1.
    destruct (q <? 2 * (p mod q)) eqn:E2.
    + apply Z.ltb_lt in E2. right. left. split; [lia|reflexivity].
    + apply Z.ltb_ge in E2.
      destruct (Z.even (p / q)) eqn:E3.
      * right. right. left. repeat split; try lia.
      * right. right. right. repeat split; try lia.
Qed.

Lemma rne_nearest p q j :
  0 <= p -> 0 < q -> Z.abs (rne p q * q - p) <= Z.abs (j * q - p).
Proof.
  intros Hp Hq.
  destruct (rne_cases Hp Hq) as (d & r & Hpe & Hr & Hd & H).
  assert (j <= d \/ d + 1 <= j) as [Hj|Hj] by lia;
  destruct H as [[H1 H2]|[[H1 H2]|[(H1 & H3 & H2)|(H1 & H3 & H2)]]];
  rewrite H2; nia.
Qed.

Lemma rne_half p q :
  0 <= p -> 0 < q -> 2 * Z.abs (rne p q * q - p) <= q.
Proof.
  intros Hp Hq.
  destruct (rne_cases Hp Hq) as (d & r & Hpe & Hr & Hd & H).
  destruct H as [[H1 H2]|[[H1 H2]|[(H1 & H3 & H2)|(H1 & H3 & H2)]]];
  rewrite H2; nia.
Qed.

Lemma even_succ_false d : Z.even d = false -> Z.even (d + 1) = true.
Proof.
  intros H. rewrite Z.even_add, H. reflexivity.
Qed.

Lemma rne_tie_even p q :
  0 <= p -> 0 < q -> 2 * Z.abs (rne p q * q - p) = q -> Z.even (rne p q) = true.
Proof.
  intros Hp Hq.
  destruct (rne_cases Hp Hq) as (d & r & Hpe & Hr & Hd & H).
  destruct H as [[H1 H2]|[[H1 H2]|[(H1 & H3 & H2)|(H1 & H3 & H2)]]];
  rewrite H2; intros Ht; try nia.
  - exact H3.
  - apply even_succ_false. exact H3.
Qed.

Lemma rne_unique p q k :
  0 <= p -> 0 < q ->
  2 * Z.abs (k * q - p) < q \/ (2 * Z.abs (k * q - p) = q /\ Z.even k = true) ->
  rne p q = k.
Proof.
  intros Hp Hq Hk.
  destruct (rne_cases Hp Hq) as (d & r & Hpe & Hr & Hd & H).
  assert (k <= d - 1 \/ k = d \/ k = d + 1 \/ d + 2 <= k) as Hc by lia.
  destruct Hk as [Hk|[Hk Hev]].
  - destruct H as [[H1 H2]|[[H1 H2]|[(H1 & H3 & H2)|(H1 & H3 & H2)]]];
    rewrite H2; destruct Hc as [Hc|[Hc|[Hc|Hc]]]; nia.
  - destruct H as [[H1 H2]|[[H1 H2]|[(H1 & H3 & H2)|(H1 & H3 & H2)]]];
    rewrite H2; destruct Hc as [Hc|[Hc|[Hc|Hc]]]; try nia; subst k.
    + rewrite Z.even_add, H3 in Hev. discriminate.
    + congruence.
Qed.

Lemma rne_ge p q j : 0 <= p -> 0 < q -> j * q <= p -> j <= rne p q.
Proof.
  intros Hp Hq Hj.
  destruct (rne_cases Hp Hq) as (d & r & Hpe & Hr & Hd & H).
  assert (j <= d) by nia.
  destruct H as [[H1 H2]|[[H1 H2]|[(H1 & H3 & H2)|(H1 & H3 & H2)]]];
  rewrite H2; lia.
Qed.

Lemma rne_le p q j : 0 <= p -> 0 < q -> p <= j * q -> rne p q <= j.
Proof.
  intros Hp Hq Hj.
  destruct (rne_cases Hp Hq) as (d & r & Hpe & Hr & Hd & H).
  destruct H as [[H1 H2]|[[H1 H2]|[(H1 & H3 & H2)|(H1 & H3 & H2)]]];
  rewrite H2; nia.
Qed.

Lemma rne_nonneg p q : 0 <= p -> 0 < q -> 0 <= rne p q.
Proof. intros Hp Hq. apply rne_ge; lia. Qed.

Lemma bit_length_bounds n :
  0 < n -> 2 ^ (bit_length n - 1) <= n < 2 ^ bit_length n.
Proof.
  intros Hn. unfold bit_length.
  destruct (n =? 0) eqn:E; [apply Z.eqb_eq in E; lia|].
  replace (Z.log2 n + 1 - 1) with (Z.log2 n) by lia.
  replace (Z.log2 n + 1) with (Z.succ (Z.log2 n)) by lia.
  apply Z.log2_spec. exact Hn.
Qed.

Lemma bit_length_nonneg n : 0 <= bit_length n.
Proof.
  unfold bit_length. destruct (n =? 0); [lia|].
  pose proof (Z.log2_nonneg n). lia.
Qed.

Lemma grain_nonneg p q : 0 <= grain p q.
Proof. unfold grain. lia. Qed.

Lemma grain_positive p q :
  0 <= p -> 0 < q -> 0 < grain p q -> 2 ^ (grain p q + 52) * q <= p.
Proof.
  intros Hp Hq Hg. unfold grain in *.
  assert (Hb : 53 < bit_length (p / q)) by lia.
  assert (Hpos : 0 < p / q).
  { pose proof (Z.div_pos p q Hp Hq).
    assert (p / q <> 0); [|lia].
    intros E. rewrite E in Hb. unfold bit_length in Hb. simpl in Hb. lia. }
  pose proof (bit_length_bounds Hpos) as [Hlo _].
  replace (Z.max 0 (bit_length (p / q) - 53) + 52) with (bit_length (p / q) - 1) by lia.
  pose proof (Z.mul_div_le p q Hq). nia.
Qed.

Lemma grain_upper p q :
  0 <= p -> 0 < q -> p < 2 ^ (grain p q + 53) * q.
Proof.
  intros Hp Hq. unfold grain.
  pose proof (Z.div_pos p q Hp Hq) as Hd.
  pose proof (Z.div_mod p q ltac:(lia)) as Hdm.
  pose proof (Z.mod_pos_bound p q Hq) as Hr.
  assert (Hlt : p / q < 2 ^ (Z.max 0 (bit_length (p / q) - 53) + 53)).
  { destruct (Z.eq_dec (p / q) 0) as [E|E].
    - rewrite E. apply Z.pow_pos_nonneg; lia.
    - assert (Hpos : 0 < p / q) by lia.
      pose proof (bit_length_bounds Hpos) as [_ Hhi].
      eapply Z.lt_le_trans; [exact Hhi|].
      apply Z.pow_le_mono_r; lia. }
  set (T := 2 ^ (Z.max 0 (bit_length (p / q) - 53) + 53)) in *.
  set (D := p / q) in *. set (R := p mod q) in *.
  clearbody T D R.
  assert (H1 : D + 1 <= T) by lia.
  assert (H2 : (D + 1) * q <= T * q) by (apply Z.mul_le_mono_nonneg_r; lia).
  rewrite Z.mul_add_distr_r in H2. rewrite (Z.mul_comm q D) in Hdm. lia.
Qed.

Lemma round_nearest p q mw gw :
  0 <= p -> 0 < q -> 0 <= mw <= 2 ^ 53 -> 0 <= gw ->
  Z.abs (rne p (q * 2 ^ grain p q) * 2 ^ grain p q * q - p) <=
  Z.abs (mw * 2 ^ gw * q - p).
Proof.
  intros Hp Hq Hm Hgw.
  pose proof (grain_nonneg p q) as Hg.
  set (g := grain p q) in *.
  assert (HA : 0 < 2 ^ g) by (apply Z.pow_pos_nonneg; lia).
  assert (HQ : 0 < q * 2 ^ g) by nia.
  destruct (Z_le_gt_dec g gw) as [Hc|Hc].
  - pose proof (rne_nearest (mw * 2 ^ (gw - g)) Hp HQ) as Hn.
    replace (2 ^ gw) with (2 ^ (gw - g) * 2 ^ g)
      by (rewrite <- Z.pow_add_r by lia; f_equal; lia).
    replace (rne p (q * 2 ^ g) * 2 ^ g * q) with (rne p (q * 2 ^ g) * (q * 2 ^ g)) by ring.
    replace (mw * (2 ^ (gw - g) * 2 ^ g) * q) with (mw * 2 ^ (gw - g) * (q * 2 ^ g)) by ring.
    exact Hn.
  - assert (Hgp : 0 < grain p q) by (fold g; lia).
    pose proof (grain_positive Hp Hq Hgp) as Hlow. fold g in Hlow.
    pose proof (rne_nearest (2 ^ 52) Hp HQ) as Hn.
    rewrite Z.pow_add_r in Hlow by lia.
    assert (Hw : mw * 2 ^ gw <= 2 ^ g * 2 ^ 52).
    { assert (2 ^ gw * 2 <= 2 ^ g).
      { replace (2 ^ gw * 2) with (2 ^ (gw + 1)) by (rewrite Z.pow_add_r by lia; lia).
        apply Z.pow_le_mono_r; lia. }
      assert (0 < 2 ^ gw) by (apply Z.pow_pos_nonneg; lia).
      replace (2 ^ 53) with (2 * 2 ^ 52) in Hm by reflexivity.
      assert (0 < 2 ^ 52) by reflexivity.
      nia. }
    replace (rne p (q * 2 ^ g) * 2 ^ g * q) with (rne p (q * 2 ^ g) * (q * 2 ^ g)) by ring.
    assert (H1 : mw * 2 ^ gw * q <= 2 ^ g * 2 ^ 52 * q)
      by (apply Z.mul_le_mono_nonneg_r; lia).
    replace (2 ^ 52 * (q * 2 ^ g)) with (2 ^ g * 2 ^ 52 * q) in Hn by ring.
    lia.
Qed.

Lemma round_units_unfold p q :
  round_units p q =
  let v := rne p (q * 2 ^ grain p q) * 2 ^ grain p q in
  if v <? 2 ^ 2098 then Some v else None.
Proof. reflexivity. Qed.

Lemma round_units_representable p q v :
  0 <= p -> 0 < q -> round_units p q = Some v -> representable v.
Proof.
  intros Hp Hq. rewrite round_units_unfold. cbv zeta.
  pose proof (grain_nonneg p q) as Hg.
  pose proof (grain_upper Hp Hq) as Hup.
  set (g := grain p q) in *.
  assert (HA : 0 < 2 ^ g) by (apply Z.pow_pos_nonneg; lia).
  assert (HQ : 0 < q * 2 ^ g) by nia.
  pose proof (rne_nonneg Hp HQ) as Hm0.
  assert (Hm1 : rne p (q * 2 ^ g) <= 2 ^ 53).
  { apply rne_le; try assumption. rewrite Z.pow_add_r in Hup by lia. nia. }
  set (m := rne p (q * 2 ^ g)) in *.
  destruct (m * 2 ^ g <? 2 ^ 2098) eqn:E; [|discriminate].
  intros H. inversion H. subst v. clear H. apply Z.ltb_lt in E.
  assert (Hglim : m = 2 ^ 53 \/ 0 < g -> 52 + g < 2098).
  { intros Hcase.
    assert (2 ^ (52 + g) <= m * 2 ^ g).
    { rewrite Z.pow_add_r by lia.
      destruct Hcase as [->|Hgp].
      - assert (2 ^ 52 <= 2 ^ 53) by (apply Z.pow_le_mono_r; lia). nia.
      - assert (Hgp' : 0 < grain p q) by (fold g; lia).
        pose proof (grain_positive Hp Hq Hgp') as Hlow. fold g in Hlow.
        assert (2 ^ 52 <= m).
        { apply rne_ge; try assumption.
          rewrite Z.pow_add_r in Hlow by lia. nia. }
        nia. }
    apply (Z.pow_lt_mono_r_iff 2); lia. }
  destruct (Z.eq_dec m (2 ^ 53)) as [Em|Em].
  - exists (2 ^ 52), (g + 1). rewrite Em. split.
    + rewrite Z.pow_add_r by lia.
      replace (2 ^ 53) with (2 ^ 52 * 2 ^ 1) by reflexivity. ring.
    + split; [split; [apply Z.pow_nonneg; lia | apply Z.pow_lt_mono_r; lia]|].
      pose proof (Hglim (or_introl Em)).
      assert (m * 2 ^ g = 2 ^ (53 + g)) by (rewrite Em, Z.pow_add_r by lia; ring).
      assert (53 + g < 2098); [|lia].
      apply (Z.pow_lt_mono_r_iff 2); lia.
  - exists m, g. split; [reflexivity|]. split; [lia|].
    destruct (Z.eq_dec g 0); [lia|].
    assert (52 + g < 2098) by (apply Hglim; right; lia). lia.
Qed.

Lemma representable_bound v :
  representable v -> 0 <= v /\ v + 2 ^ 2045 <= 2 ^ 2098.
Proof.
  intros (m & g & -> & Hm & Hg).
  assert (HA : 0 < 2 ^ g) by (apply Z.pow_pos_nonneg; lia).
  assert (HB : 2 ^ g <= 2 ^ 2045) by (apply Z.pow_le_mono_r; lia).
  replace (2 ^ 2098) with (2 ^ 53 * 2 ^ 2045)
    by (rewrite <- Z.pow_add_r by lia; reflexivity).
  set (Y := 2 ^ 2045) in *. set (A := 2 ^ g) in *. set (M := 2 ^ 53) in *.
  clearbody Y A M. split; [nia|].
  assert (m * A <= (M - 1) * Y); [|lia].
  transitivity ((M - 1) * A).
  - apply Z.mul_le_mono_nonneg_r; lia.
  - apply Z.mul_le_mono_nonneg_l; lia.
Qed.

(** Reading back a price written with two decimals: the float nearest
    to [k / 100] is again written as [k]. *)
Lemma reformat_stable v :
  representable v ->
  0 < rne (100 * v) (2 ^ 1074) ->
  exists v', round_units (rne (100 * v) (2 ^ 1074) * 2 ^ 1074) 100 = Some v' /\
             rne (100 * v') (2 ^ 1074) = rne (100 * v) (2 ^ 1074).
Proof.
  intros Hv Hk.
  pose proof (representable_bound Hv) as [Hv0 Hvmax].
  assert (HX : 0 < 2 ^ 1074) by (apply Z.pow_pos_nonneg; lia).
  assert (HXY : 2 ^ 1074 <= 2 ^ 2045) by (apply Z.pow_le_mono_r; lia).
  assert (Hp0 : 0 <= 100 * v) by lia.
  pose proof (rne_half Hp0 HX) as Hhalf.
  pose proof (@rne_tie_even (100 * v) (2 ^ 1074) Hp0 HX) as Htie.
  set (k := rne (100 * v) (2 ^ 1074)) in *.
  set (X := 2 ^ 1074) in *.
  assert (Hp : 0 <= k * X) by nia.
  destruct Hv as (m & g & Ev & Hm & Hg).
  pose proof (@round_nearest (k * X) 100 m g Hp ltac:(lia) ltac:(lia) ltac:(lia)) as Hn.
  rewrite <- Ev in Hn.
  rewrite round_units_unfold. cbv zeta.
  pose proof (grain_nonneg (k * X) 100) as Hg0.
  set (g' := grain (k * X) 100) in *.
  assert (HA : 0 < 2 ^ g') by (apply Z.pow_pos_nonneg; lia).
  assert (HQ : 0 < 100 * 2 ^ g') by lia.
  pose proof (rne_nonneg Hp HQ) as Hm0.
  set (v' := rne (k * X) (100 * 2 ^ g') * 2 ^ g') in *.
  assert (Hv'0 : 0 <= v') by (unfold v'; nia).
  set (Y := 2 ^ 2045) in *. set (Z2098 := 2 ^ 2098) in *.
  clearbody X Y Z2098 k v'.
  assert (Habs : 2 * Z.abs (v' * 100 - k * X) <= X) by lia.
  assert (E : (v' <? Z2098) = true) by (apply Z.ltb_lt; lia).
  rewrite E. exists v'. split; [reflexivity|].
  apply rne_unique; try lia.
  destruct (Z.eq_dec (2 * Z.abs (k * X - 100 * v')) X) as [Et|Et].
  - right. split; [exact Et|]. apply Htie. lia.
  - left. lia.
Qed.

(** *** Decimal notation, written and read back *)

Lemma digits_value_dv s : digits_value s = dv 0 s.
Proof. reflexivity. Qed.

Lemma dv_app acc a b : dv acc (a ++ b) = dv (dv acc a) b.
Proof. unfold dv. apply fold_left_app. Qed.

Lemma digit_char_digit d :
  0 <= d <= 9 -> ascii_digit (digit_char d) = true /\ Z.of_N (digit_char d) - 48 = d.
Proof.
  intros Hd. unfold ascii_digit, digit_char.
  split.
  - apply andb_true_iff. split; apply N.leb_le; lia.
  - lia.
Qed.

Lemma dec_go_spec fuel :
  forall n acc,
    fuel <> O -> 0 <= n < 2 ^ Z.of_nat fuel ->
    exists ds, dec_go fuel n acc = ds ++ acc /\
               ds <> [] /\
               forallb ascii_digit ds = true /\
               forall a0, dv a0 ds = a0 * 10 ^ Z.of_nat (List.length ds) + n.
Proof.
  induction fuel as [|f IH]; intros n acc Hf Hn; [congruence|].
  simpl dec_go.
  assert (Hmod : 0 <= n mod 10 <= 9) by (pose proof (Z.mod_pos_bound n 10); lia).
  destruct (digit_char_digit Hmod) as [Hd1 Hd2].
  destruct (n <? 10) eqn:E.
  - apply Z.ltb_lt in E. exists [digit_char (n mod 10)].
    split; [reflexivity|]. split; [discriminate|].
    split; [simpl; rewrite Hd1; reflexivity|].
    intros a0. unfold dv. cbn [fold_left]. rewrite Hd2.
    rewrite Z.mod_small by lia. simpl List.length.
    change (10 ^ Z.of_nat 1) with 10. lia.
  - apply Z.ltb_ge in E.
    assert (Hdiv : 1 <= n / 10 /\ 2 * (n / 10) <= n).
    { pose proof (Z.div_mod n 10 ltac:(lia)). lia. }
    assert (Hf' : f <> O).
    { intros ->. change (2 ^ Z.of_nat 1) with 2 in Hn. lia. }
    assert (Hn' : 0 <= n / 10 < 2 ^ Z.of_nat f).
    { rewrite Nat2Z.inj_succ, Z.pow_succ_r in Hn by lia. lia. }
    destruct (IH (n / 10) (digit_char (n mod 10) :: acc) Hf' Hn')
      as (ds & E1 & E2 & E3 & E4).
    exists (ds ++ [digit_char (n mod 10)]).
    split; [rewrite E1, <- app_assoc; reflexivity|].
    split; [destruct ds; discriminate|].
    split; [rewrite forallb_app, E3; simpl; rewrite Hd1; reflexivity|].
    intros a0. rewrite dv_app, E4. unfold dv at 1. cbn [fold_left].
    rewrite Hd2, length_app. simpl List.length.
    rewrite Nat2Z.inj_add. change (Z.of_nat 1) with 1.
    rewrite Z.pow_add_r by lia. change (10 ^ 1) with 10.
    pose proof (Z.div_mod n 10 ltac:(lia)). lia.
Qed.

Lemma dec_spec n :
  0 <= n ->
  dec n <> [] /\ forallb ascii_digit (dec n) = true /\ digits_value (dec n) = n /\
  forall a0, dv a0 (dec n) = a0 * 10 ^ Z.of_nat (List.length (dec n)) + n.
Proof.
  intros Hn. unfold dec.
  assert (Hb : 0 <= n < 2 ^ Z.of_nat (S (Z.to_nat (Z.log2 n)))).
  { split; [exact Hn|].
    rewrite Nat2Z.inj_succ, Z2Nat.id by apply Z.log2_nonneg.
    destruct (Z.eq_dec n 0) as [->|Hz]; [reflexivity|].
    apply Z.log2_spec. lia. }
  destruct (@dec_go_spec (S (Z.to_nat (Z.log2 n))) n [] ltac:(discriminate) Hb)
    as (ds & E1 & E2 & E3 & E4).
  rewrite E1, app_nil_r.
  repeat split; try assumption.
  rewrite digits_value_dv, E4. lia.
Qed.

(** *** Strings of digits, points and minus signs *)

Lemma digit_enum c :
  ascii_digit c = true ->
  In c [48; 49; 50; 51; 52; 53; 54; 55; 56; 57]%N.
Proof.
  unfold ascii_digit. intros H. apply andb_true_iff in H as [H1 H2].
  apply N.leb_le in H1, H2. simpl.
  assert (c = 48 \/ c = 49 \/ c = 50 \/ c = 51 \/ c = 52 \/ c = 53 \/
          c = 54 \/ c = 55 \/ c = 56 \/ c = 57)%N as Hc by lia.
  repeat (destruct Hc as [Hc|Hc]; [subst; tauto|]). subst; tauto.
Qed.

Lemma plain_enum c :
  plain c = true ->
  In c [45; 46; 48; 49; 50; 51; 52; 53; 54; 55; 56; 57]%N.
Proof.
  unfold plain. intros H.
  apply orb_true_iff in H as [H|H]; [apply orb_true_iff in H as [H|H]|].
  - right. right. apply digit_enum. exact H.
  - apply N.eqb_eq in H. subst. right. left. reflexivity.
  - apply N.eqb_eq in H. subst. left. reflexivity.
Qed.

Ltac by_cases H :=
  simpl in H;
  repeat (destruct H as [H|H]; [subst; try reflexivity|]);
  try contradiction.

Lemma digit_plain c : ascii_digit c = true -> plain c = true.
Proof. intros H. unfold plain. rewrite H. reflexivity. Qed.

Lemma plain_kept c :
  plain c = true ->
  negb (currency_or_space c) = true /\ negb (c =? 44)%N = true /\
  (c <? 127)%N = true /\ (c =? 95)%N = false /\ c_space c = false.
Proof.
  intros H. apply plain_enum in H. by_cases H; repeat split.
Qed.

Lemma filter_all (A : Type) (p : A -> bool) (l : list A) :
  forallb p l = true -> filter p l = l.
Proof.
  induction l as [|a l IH]; simpl; [reflexivity|].
  intros H. apply andb_true_iff in H as [H1 H2].
  rewrite H1, IH by exact H2. reflexivity.
Qed.

Lemma forallb_weaken (A : Type) (p q : A -> bool) (l : list A) :
  (forall a, p a = true -> q a = true) ->
  forallb p l = true -> forallb q l = true.
Proof.
  intros Hpq. rewrite !forallb_forall. intros H a Ha. apply Hpq, H, Ha.
Qed.

Lemma to_ascii_number_plain s :
  forallb plain s = true -> to_ascii_number U s = s.
Proof.
  induction s as [|c t IH]; simpl; [reflexivity|].
  intros H. apply andb_true_iff in H as [H1 H2].
  destruct (plain_kept c H1) as (_ & _ & H3 & _).
  rewrite H3, IH by exact H2. reflexivity.
Qed.

Lemma drop_underscores_plain s :
  forall prev, (prev =? 95)%N = false ->
    forallb plain s = true -> drop_underscores prev s = Some s.
Proof.
  induction s as [|c t IH]; simpl; intros prev Hp H.
  - rewrite Hp. reflexivity.
  - apply andb_true_iff in H as [H1 H2].
    destruct (plain_kept c H1) as (_ & _ & _ & H3 & _).
    rewrite H3, Hp. simpl. rewrite IH by assumption. reflexivity.
Qed.

Lemma drop_while_head (p : char -> bool) s :
  match s with [] => True | c :: _ => p c = false end -> drop_while p s = s.
Proof. destruct s as [|c t]; simpl; [reflexivity|]. intros ->. reflexivity. Qed.

Lemma c_strip_plain s : forallb plain s = true -> c_strip s = s.
Proof.
  intros H. unfold c_strip.
  assert (Hall : forall c, In c s -> c_space c = false).
  { intros c Hc. rewrite forallb_forall in H.
    destruct (plain_kept c (H c Hc)) as (_ & _ & _ & _ & H5). exact H5. }
  rewrite (drop_while_head c_space s).
  - rewrite (drop_while_head c_space (rev s)); [apply rev_involutive|].
    destruct (rev s) as [|c t] eqn:E; [exact I|].
    apply Hall. apply in_rev. rewrite E. left. reflexivity.
  - destruct s as [|c t]; [exact I|]. apply Hall. left. reflexivity.
Qed.

Lemma split_sign_digit d r :
  ascii_digit d = true -> split_sign (d :: r) = (false, d :: r).
Proof. intros H. apply digit_enum in H. by_cases H. Qed.

Lemma digit_not_word d r :
  ascii_digit d = true ->
  let word := map (fun c => if ascii_upper_letter c then (c + 32)%N else c) (d :: r) in
  str_eqb word (u "inf") || str_eqb word (u "infinity") = false /\
  str_eqb word (u "nan") = false.
Proof. intros H. apply digit_enum in H. by_cases H; split; reflexivity. Qed.

Lemma take_digits_app ds r :
  forallb ascii_digit ds = true ->
  match r with [] => True | c :: _ => ascii_digit c = false end ->
  take_digits (ds ++ r) = (ds, r).
Proof.
  intros Hds Hr. induction ds as [|d ds IH]; simpl.
  - destruct r as [|c t]; [reflexivity|]. simpl. rewrite Hr. reflexivity.
  - simpl in Hds. apply andb_true_iff in Hds as [H1 H2].
    rewrite H1, IH by exact H2. reflexivity.
Qed.

Lemma two_decimals_plain neg ds d1 d2 :
  forallb ascii_digit ds = true -> ascii_digit d1 = true -> ascii_digit d2 = true ->
  forallb plain (two_decimals neg ds d1 d2) = true.
Proof.
  intros Hds H1 H2. unfold two_decimals.
  rewrite !forallb_app.
  rewrite (forallb_weaken ascii_digit plain ds digit_plain Hds).
  simpl. rewrite (digit_plain _ H1), (digit_plain _ H2).
  destruct neg; reflexivity.
Qed.

Lemma py_float_two_decimals neg ds d1 d2 :
  ds <> [] ->
  forallb ascii_digit ds = true -> ascii_digit d1 = true -> ascii_digit d2 = true ->
  py_float U (two_decimals neg ds d1 d2) =
  Some (float_of_decimal neg (digits_value (ds ++ [d1; d2])) (-2)).
Proof.
  intros Hne Hds H1 H2.
  pose proof (two_decimals_plain neg ds d1 d2 Hds H1 H2) as Hplain.
  unfold py_float.
  rewrite to_ascii_number_plain, drop_underscores_plain, c_strip_plain
    by (assumption || reflexivity).
  destruct ds as [|d ds']; [congruence|].
  simpl in Hds. apply andb_true_iff in Hds as [Hd Hds'].
  assert (Hsplit : split_sign (two_decimals neg (d :: ds') d1 d2) =
                   (neg, (d :: ds') ++ u "." ++ [d1; d2])).
  { unfold two_decimals. destruct neg; [reflexivity|].
    simpl app. apply split_sign_digit. exact Hd. }
  rewrite Hsplit.
  destruct (digit_not_word d (ds' ++ u "." ++ [d1; d2]) Hd) as [Hw1 Hw2].
  cbv zeta in Hw1, Hw2.
  change ((d :: ds') ++ u "." ++ [d1; d2]) with (d :: ds' ++ u "." ++ [d1; d2]).
  rewrite Hw1, Hw2.
  change (d :: ds' ++ u "." ++ [d1; d2]) with ((d :: ds') ++ (46%N :: [d1; d2])).
  rewrite take_digits_app; [| simpl; rewrite Hd; exact Hds' | reflexivity].
  change ((46 =? 46)%N) with true. cbv iota.
  replace [d1; d2] with ([d1; d2] ++ []) at 1 by reflexivity.
  rewrite take_digits_app; [| simpl; rewrite H1, H2; reflexivity | exact I].
  reflexivity.
Qed.


Lemma representable_zero : representable 0.
Proof. exists 0, 0. repeat split; lia. Qed.

Lemma float_of_decimal_valid neg m e :
  0 <= m -> valid_float (float_of_decimal neg m e).
Proof.
  intros Hm. unfold float_of_decimal.
  destruct (m =? 0); [apply representable_zero|].
  assert (HX : 0 < 2 ^ 1074) by (apply Z.pow_pos_nonneg; lia).
  destruct (0 <=? e) eqn:E.
  - apply Z.leb_le in E.
    assert (0 <= 10 ^ e) by (apply Z.pow_nonneg; lia).
    destruct (round_units (m * 10 ^ e * 2 ^ 1074) 1) as [v|] eqn:R; [|exact I].
    apply (@round_units_representable (m * 10 ^ e * 2 ^ 1074) 1 v); [|lia|exact R].
    set (X := 2 ^ 1074) in *. clearbody X. nia.
  - apply Z.leb_gt in E.
    assert (0 < 10 ^ (- e)) by (apply Z.pow_pos_nonneg; lia).
    destruct (round_units (m * 2 ^ 1074) (10 ^ (- e))) as [v|] eqn:R; [|exact I].
    apply (@round_units_representable (m * 2 ^ 1074) (10 ^ (- e)) v); [|lia|exact R].
    set (X := 2 ^ 1074) in *. clearbody X. nia.
Qed.

Lemma take_digits_digits s :
  forallb ascii_digit (fst (take_digits s)) = true.
Proof.
  induction s as [|c t IH]; simpl; [reflexivity|].
  destruct (ascii_digit c) eqn:E; [|reflexivity].
  destruct (take_digits t) as [d r]. simpl in *. rewrite E, IH. reflexivity.
Qed.

Lemma dv_nonneg s :
  forall acc, 0 <= acc -> forallb ascii_digit s = true -> 0 <= dv acc s.
Proof.
  induction s as [|c t IH]; intros acc Hacc H; [exact Hacc|].
  simpl in H. apply andb_true_iff in H as [H1 H2].
  unfold dv. cbn [fold_left]. apply IH; [|exact H2].
  unfold ascii_digit in H1. apply andb_true_iff in H1 as [Ha Hb].
  apply N.leb_le in Ha, Hb. lia.
Qed.

Lemma py_float_valid s x : py_float U s = Some x -> valid_float x.
Proof.
  unfold py_float.
  destruct (drop_underscores 0%N (to_ascii_number U s)) as [t|]; [|discriminate].
  destruct (split_sign (c_strip t)) as [neg body].
  destruct (_ || _); [intros H; inversion H; exact I|].
  destruct (str_eqb _ (u "nan")); [intros H; inversion H; exact I|].
  pose proof (take_digits_digits body) as Hip.
  destruct (take_digits body) as [ip r1]. simpl in Hip.
  assert (Hfp : forall fp r2,
            match r1 with
            | c :: t1 => if (c =? 46)%N then take_digits t1 else ([], r1)
            | [] => ([], [])
            end = (fp, r2) -> forallb ascii_digit fp = true).
  { intros fp r2. destruct r1 as [|c t1].
    - intros H; inversion H. reflexivity.
    - destruct (c =? 46)%N.
      + intros H. pose proof (take_digits_digits t1) as Ht. rewrite H in Ht. exact Ht.
      + intros H; inversion H. reflexivity. }
  destruct (match r1 with [] => _ | _ :: _ => _ end) as [fp r2].
  specialize (Hfp fp r2 eq_refl).
  destruct (ip ++ fp) as [|c0 l0] eqn:Eapp; [discriminate|].
  destruct (parse_exponent r2) as [e|]; [|discriminate].
  intros H. inversion H. apply float_of_decimal_valid.
  rewrite digits_value_dv. apply dv_nonneg; [lia|].
  rewrite <- Eapp, forallb_app, Hip, Hfp. reflexivity.
Qed.

Lemma format_2f_finite neg v :
  format_2f (Finite neg v) =
  two_decimals neg (dec (rne (100 * v) (2 ^ 1074) / 100))
    (digit_char (rne (100 * v) (2 ^ 1074) / 10 mod 10))
    (digit_char (rne (100 * v) (2 ^ 1074) mod 10)).
Proof. reflexivity. Qed.

Lemma normalize_two_decimals neg ds d1 d2 :
  ds <> [] ->
  forallb ascii_digit ds = true -> ascii_digit d1 = true -> ascii_digit d2 = true ->
  normalize_price U (two_decimals neg ds d1 d2) =
  format_2f (float_of_decimal neg (digits_value (ds ++ [d1; d2])) (-2)).
Proof.
  intros Hne Hds H1 H2.
  pose proof (two_decimals_plain neg ds d1 d2 Hds H1 H2) as Hplain.
  pose proof (py_float_two_decimals neg d1 d2 Hne Hds H1 H2) as Hpf.
  unfold normalize_price.
  rewrite (filter_all (fun c => negb (currency_or_space c))), (filter_all (fun c => negb (c =? 44)%N)).
  - destruct ds as [|d ds']; [congruence|].
    simpl in Hds. apply andb_true_iff in Hds as [Hd _].
    destruct neg.
    + change (two_decimals true (d :: ds') d1 d2)
        with (45%N :: (d :: ds') ++ u "." ++ [d1; d2]) in *.
      cbv iota beta. change ((45 =? 45)%N) with true. cbv iota beta.
      change (u "-" ++ (d :: ds') ++ u "." ++ [d1; d2])
        with (45%N :: (d :: ds') ++ u "." ++ [d1; d2]).
      rewrite Hpf. reflexivity.
    + change (two_decimals false (d :: ds') d1 d2)
        with (d :: ds' ++ u "." ++ [d1; d2]) in *.
      assert (Ed : (d =? 45)%N = false)
        by (apply digit_enum in Hd; by_cases Hd).
      cbv iota beta. rewrite Ed. cbv iota beta.
      change ([] ++ d :: ds' ++ u "." ++ [d1; d2])
        with (d :: ds' ++ u "." ++ [d1; d2]).
      rewrite Hpf. reflexivity.
  - eapply forallb_weaken; [|exact Hplain]. intros c Hc.
    destruct (plain_kept c Hc) as (_ & H & _). exact H.
  - eapply forallb_weaken; [|exact Hplain]. intros c Hc.
    destruct (plain_kept c Hc) as (H & _). exact H.
Qed.

Lemma two_digit_value k :
  0 <= k ->
  digits_value (dec (k / 100) ++ [digit_char (k / 10 mod 10); digit_char (k mod 10)]) = k.
Proof.
  intros Hk.
  assert (Hhi : 0 <= k / 100) by (apply Z.div_pos; lia).
  destruct (dec_spec Hhi) as (_ & _ & Hv & _).
  assert (H1 : 0 <= k / 10 mod 10 <= 9) by (pose proof (Z.mod_pos_bound (k / 10) 10); lia).
  assert (H2 : 0 <= k mod 10 <= 9) by (pose proof (Z.mod_pos_bound k 10); lia).
  destruct (digit_char_digit H1) as [_ E1].
  destruct (digit_char_digit H2) as [_ E2].
  rewrite digits_value_dv, dv_app, <- digits_value_dv, Hv.
  unfold dv. cbn [fold_left]. rewrite E1, E2.
  pose proof (Z.div_mod k 10 ltac:(lia)).
  pose proof (Z.div_mod (k / 10) 10 ltac:(lia)).
  rewrite Z.div_div in H0 by lia. change (10 * 10) with 100 in H0. lia.
Qed.

(** A float that [float] can return is written by [format_2f] as a text
    that [normalize_price] leaves as it is. *)
Lemma normalize_formatted x :
  valid_float x -> normalize_price U (format_2f x) = format_2f x.
Proof.
  destruct x as [neg v|neg|]; intros Hv.
  - simpl in Hv.
    destruct (representable_bound Hv) as [Hv0 _].
    assert (HX : 0 < 2 ^ 1074) by (apply Z.pow_pos_nonneg; lia).
    pose proof (@rne_nonneg (100 * v) (2 ^ 1074) ltac:(lia) HX) as Hk.
    rewrite format_2f_finite.
    set (k := rne (100 * v) (2 ^ 1074)) in *.
    assert (Hhi : 0 <= k / 100) by (apply Z.div_pos; lia).
    destruct (dec_spec Hhi) as (Hne & Hds & _ & _).
    assert (H1 : 0 <= k / 10 mod 10 <= 9) by (pose proof (Z.mod_pos_bound (k / 10) 10); lia).
    assert (H2 : 0 <= k mod 10 <= 9) by (pose proof (Z.mod_pos_bound k 10); lia).
    destruct (digit_char_digit H1) as [D1 _].
    destruct (digit_char_digit H2) as [D2 _].
    rewrite normalize_two_decimals by assumption.
    rewrite two_digit_value by exact Hk.
    unfold float_of_decimal.
    destruct (k =? 0) eqn:Ek.
    + apply Z.eqb_eq in Ek. rewrite format_2f_finite.
      assert (E0 : rne (100 * 0) (2 ^ 1074) = k).
      { rewrite Ek. apply rne_unique; lia. }
      rewrite E0. reflexivity.
    + apply Z.eqb_neq in Ek.
      change (0 <=? -2) with false. cbv iota.
      change (10 ^ (- (-2))) with 100.
      destruct (@reformat_stable v Hv ltac:(fold k; lia)) as (v' & Hr & Hk').
      fold k in Hr, Hk'. rewrite Hr, format_2f_finite, Hk'. reflexivity.
  - destruct neg; apply normalize_specials.
  - apply normalize_specials.
Qed.

Lemma normalize_price_range s :
  normalize_price U s = format_2f zero \/
  exists t x, py_float U t = Some x /\ normalize_price U s = format_2f x.
Proof.
  rewrite format_2f_zero.
  unfold normalize_price. destruct s as [|c s']; [left; reflexivity|].
  destruct (match filter _ (filter _ (c :: s')) with [] => _ | _ :: _ => _ end)
    as [sign cleaned].
  destruct (py_float U (sign ++ cleaned)) as [x|] eqn:E.
  - right. exists (sign ++ cleaned), x. split; [exact E|reflexivity].
  - left. reflexivity.
Qed.

(** C9: normalizing a normalized price changes nothing. *)
Theorem normalize_price_idempotent (s : str) :
  normalize_price U (normalize_price U s) = normalize_price U s.
Proof.
  destruct (normalize_price_range s) as [E|(t & x & Hx & E)]; rewrite E.
  - apply normalize_formatted. apply representable_zero.
  - apply normalize_formatted. eapply py_float_valid. exact Hx.
Qed.

Lemma format_2f_shape x :
  valid_float x ->
  format_2f x = u "inf" \/ format_2f x = u "-inf" \/ format_2f x = u "nan" \/
  exists neg ds d1 d2,
    ds <> [] /\ forallb ascii_digit ds = true /\
    ascii_digit d1 = true /\ ascii_digit d2 = true /\
    format_2f x = two_decimals neg ds d1 d2.
Proof.
  destruct x as [neg v|neg|]; intros Hv.
  - simpl in Hv.
    destruct (representable_bound Hv) as [Hv0 _].
    assert (HX : 0 < 2 ^ 1074) by (apply Z.pow_pos_nonneg; lia).
    pose proof (@rne_nonneg (100 * v) (2 ^ 1074) ltac:(lia) HX) as Hk.
    rewrite format_2f_finite.
    set (k := rne (100 * v) (2 ^ 1074)) in *.
    assert (Hhi : 0 <= k / 100) by (apply Z.div_pos; lia).
    destruct (dec_spec Hhi) as (Hne & Hds & _ & _).
    assert (H1 : 0 <= k / 10 mod 10 <= 9) by (pose proof (Z.mod_pos_bound (k / 10) 10); lia).
    assert (H2 : 0 <= k mod 10 <= 9) by (pose proof (Z.mod_pos_bound k 10); lia).
    destruct (digit_char_digit H1) as [D1 _].
    destruct (digit_char_digit H2) as [D2 _].
    right. right. right.
    exists neg, (dec (k / 100)), (digit_char (k / 10 mod 10)), (digit_char (k mod 10)).
    repeat split; assumption.
  - destruct neg; [right; left|left]; reflexivity.
  - right. right. left. reflexivity.
Qed.

(** X2. Every result of [normalize_price] is the text of an infinity, of
    not-a-number, or a text with exactly two decimals. *)
Lemma normalize_price_shape (s : str) :
  normalize_price U s = u "inf" \/ normalize_price U s = u "-inf" \/
  normalize_price U s = u "nan" \/
  exists neg ds d1 d2,
    ds <> [] /\ forallb ascii_digit ds = true /\
    ascii_digit d1 = true /\ ascii_digit d2 = true /\
    normalize_price U s = two_decimals neg ds d1 d2.
Proof.
  destruct (normalize_price_range s) as [E|(t & x & Hx & E)]; rewrite E.
  - apply format_2f_shape. apply representable_zero.
  - apply format_2f_shape. eapply py_float_valid. exact Hx.
Qed.


Local Close Scope Z_scope.

End Properties.

(** * Further properties *)

(** ** Prices, stops and documents *)

Section Documents.

Variable U : unicode_ext.

(** ** More on [normalize_price] *)

Lemma filter_twice (A : Type) (p : A -> bool) (l : list A) :
  filter p (filter p l) = filter p l.
Proof.
  induction l as [|a l IH]; simpl; [reflexivity|].
  destruct (p a) eqn:E; simpl; [rewrite E, IH; reflexivity|exact IH].
Qed.

Lemma filter_swap (A : Type) (p q : A -> bool) (l : list A) :
  filter p (filter q l) = filter q (filter p l).
Proof.
  induction l as [|a l IH]; simpl; [reflexivity|].
  destruct (p a) eqn:Ep, (q a) eqn:Eq; simpl; rewrite ?Ep, ?Eq, IH; reflexivity.
Qed.

Lemma cleaned_text_twice s : cleaned_text (cleaned_text s) = cleaned_text s.
Proof.
  unfold cleaned_text.
  rewrite (filter_swap (fun c => negb (currency_or_space c))
             (fun c : char => negb (c =? 44)%N)).
  rewrite !filter_twice. reflexivity.
Qed.

Lemma normalize_price_unfold s :
  normalize_price U s =
  match s with
  | [] => u "0.00"
  | _ :: _ =>
      let (sign, cleaned) :=
        match cleaned_text s with
        | c :: t => if (c =? 45)%N then (u "-", t) else ([], cleaned_text s)
        | [] => ([], [])
        end in
      match py_float U (sign ++ cleaned) with
      | Some x => format_2f x
      | None => u "0.00"
      end
  end.
Proof. reflexivity. Qed.

(** X3. Currency symbols, whitespace and commas do not count, wherever they
    stand in the text: [normalize_price] gives the same result for a
    text and for the text without them. *)
Theorem normalize_price_ignores_symbols (s : str) :
  normalize_price U (cleaned_text s) = normalize_price U s.
Proof.
  rewrite !normalize_price_unfold, cleaned_text_twice.
  destruct s as [|c s']; [reflexivity|].
  destruct (cleaned_text (c :: s')) as [|d t]; reflexivity.
Qed.

(** ** Small prices are kept digit for digit *)

Local Open Scope Z_scope.

Lemma bit_length_below n b : 0 <= n < 2 ^ b -> 0 <= b -> bit_length n <= b.
Proof.
  intros Hn Hb. unfold bit_length.
  destruct (n =? 0) eqn:E; [lia|]. apply Z.eqb_neq in E.
  assert (Z.log2 n < b) by (apply Z.log2_lt_pow2; lia). lia.
Qed.

Lemma small_price_read_back k :
  0 < k < 10 ^ 15 ->
  exists v', round_units (k * 2 ^ 1074) 100 = Some v' /\
             rne (100 * v') (2 ^ 1074) = k.
Proof.
  intros Hk.
  assert (HX : 0 < 2 ^ 1074) by (apply Z.pow_pos_nonneg; lia).
  assert (HXY : 2 ^ 1074 = 512 * 2 ^ 1065)
    by (change 512 with (2 ^ 9); rewrite <- Z.pow_add_r by lia; reflexivity).
  assert (HB : 2 ^ 50 * 2 ^ 1074 <= 2 ^ 2098)
    by (rewrite <- Z.pow_add_r by lia; apply Z.pow_le_mono_r; lia).
  assert (HW : 2 ^ 1118 * 64 = 2 ^ 50 * 2 ^ 1074)
    by (change 64 with (2 ^ 6); rewrite <- !Z.pow_add_r by lia; reflexivity).
  assert (HK : 10 ^ 15 < 2 ^ 50) by reflexivity.
  assert (Hp : 0 <= k * 2 ^ 1074) by nia.
  assert (Hpk : k * 2 ^ 1074 < 10 ^ 15 * 2 ^ 1074)
    by (apply Z.mul_lt_mono_pos_r; lia).
  assert (Hg : grain (k * 2 ^ 1074) 100 <= 1065).
  { unfold grain.
    assert (bit_length (k * 2 ^ 1074 / 100) <= 1118); [|lia].
    apply bit_length_below; [|lia]. split.
    - apply Z.div_pos; lia.
    - apply Z.div_lt_upper_bound; [lia|].
      set (W := 2 ^ 1118) in *. set (X := 2 ^ 1074) in *.
      set (P := k * X) in *.
      change (10 ^ 15) with 1000000000000000 in *.
      change (2 ^ 50) with 1125899906842624 in *.
      clearbody W X P. lia. }
  pose proof (grain_nonneg (k * 2 ^ 1074) 100) as Hg0.
  rewrite round_units_unfold. cbv zeta.
  set (g := grain (k * 2 ^ 1074) 100) in *.
  assert (HA : 0 < 2 ^ g) by (apply Z.pow_pos_nonneg; lia).
  assert (HAY : 2 ^ g <= 2 ^ 1065) by (apply Z.pow_le_mono_r; lia).
  assert (HQ : 0 < 100 * 2 ^ g) by lia.
  pose proof (rne_half Hp HQ) as Hhalf.
  pose proof (rne_nonneg Hp HQ) as Hm0.
  set (m := rne (k * 2 ^ 1074) (100 * 2 ^ g)) in *.
  replace (m * (100 * 2 ^ g)) with (100 * (m * 2 ^ g)) in Hhalf by ring.
  set (v := m * 2 ^ g) in *.
  assert (Hv : (v <? 2 ^ 2098) = true).
  { apply Z.ltb_lt.
    set (X := 2 ^ 1074) in *. set (Y := 2 ^ 1065) in *. set (A := 2 ^ g) in *.
    set (B := 2 ^ 2098) in *. set (P := k * X) in *.
    change (10 ^ 15) with 1000000000000000 in *.
    change (2 ^ 50) with 1125899906842624 in *.
    clearbody X Y A B P v. lia. }
  rewrite Hv. exists v. split; [reflexivity|].
  apply rne_unique; [| exact HX |].
  - assert (0 <= v) by (unfold v; nia). lia.
  - left.
    set (X := 2 ^ 1074) in *. set (Y := 2 ^ 1065) in *. set (A := 2 ^ g) in *.
    set (P := k * X) in *. clearbody X Y A P v. lia.
Qed.

(** X4. The text of a price of less than ten trillion, written with two
    decimals and without leading zeros, comes back from
    [normalize_price] digit for digit. *)
Theorem small_price_unchanged (neg : bool) (k : Z) :
  0 <= k < 10 ^ 15 ->
  normalize_price U (price_text neg k) = price_text neg k.
Proof.
  intros Hk. unfold price_text.
  assert (Hhi : 0 <= k / 100) by (apply Z.div_pos; lia).
  destruct (dec_spec Hhi) as (Hne & Hds & _ & _).
  assert (H1 : 0 <= k / 10 mod 10 <= 9) by (pose proof (Z.mod_pos_bound (k / 10) 10); lia).
  assert (H2 : 0 <= k mod 10 <= 9) by (pose proof (Z.mod_pos_bound k 10); lia).
  destruct (digit_char_digit H1) as [D1 _].
  destruct (digit_char_digit H2) as [D2 _].
  rewrite normalize_two_decimals by assumption.
  rewrite two_digit_value by lia.
  unfold float_of_decimal.
  assert (HX : 0 < 2 ^ 1074) by (apply Z.pow_pos_nonneg; lia).
  destruct (k =? 0) eqn:Ek.
  - apply Z.eqb_eq in Ek. rewrite format_2f_finite.
    assert (E0 : rne (100 * 0) (2 ^ 1074) = k).
    { rewrite Ek. apply rne_unique; lia. }
    rewrite E0. reflexivity.
  - apply Z.eqb_neq in Ek.
    change (0 <=? -2) with false. cbv iota.
    change (10 ^ (- (-2))) with 100.
    destruct (@small_price_read_back k ltac:(lia)) as (v' & Hr & Hk').
    rewrite Hr, format_2f_finite, Hk'. reflexivity.
Qed.

Local Close Scope Z_scope.

(** ** Strategy A keeps the prices in the description *)

(** X5. Whenever Strategy A accepts a line, the line starts with a
    quantity, the unit price and the cost are the last two prices of
    the scan, and the description is the whole text after the quantity,
    prices included, less a leading item code: no price is ever removed
    from it. *)
Theorem vtn_description_keeps_prices (raw_line : str) (it : item) :
  vtn_line U raw_line = Some it ->
  exists qty_match,
    re_match U (leading_quantity U) (strip raw_line) = Some qty_match /\
    last_two (extract_prices_from_line U (strip raw_line)) =
      Some (unitPrice it, cost it) /\
    description it =
      strip (re_sub U item_code_pattern
               (strip (strip (skipn (pos (snd qty_match)) (strip raw_line))))).
Proof.
  unfold vtn_line.
  destruct (strip raw_line) as [|c0 t0]; [discriminate|].
  destruct (str_in _ vtn_keywords); [discriminate|].
  destruct (_ <? 2)%nat; [discriminate|].
  unfold vtn_try.
  destruct (last_two _) as [[up c]|]; [|discriminate].
  destruct (re_match U (leading_quantity U) (c0 :: t0)) as [m|]; [|discriminate].
  unfold bind.
  destruct (py_int U _) as [n|]; [|discriminate].
  destruct (remove_prices U _ _) as [t|] eqn:R; [|discriminate].
  apply remove_prices_unchanged in R. subst t.
  destruct (accepted _ _ _ _); simpl; intros H; inversion H; subst; clear H.
  exists m. simpl. repeat split; reflexivity.
Qed.

(** ** Strategy A skips a quantity it cannot read *)

(** [int] refuses a text of more digits than the limit allows. *)
Lemma py_int_refuses_long (digits : str) :
  forallb ascii_digit digits = true ->
  (int_max_str_digits < List.length digits)%nat ->
  py_int U digits = Raises ValueError.
Proof.
  intros Hd Hlen. unfold py_int.
  assert (Hp : forallb plain digits = true)
    by (eapply forallb_weaken; [apply digit_plain|exact Hd]).
  rewrite (to_ascii_number_plain U digits Hp).
  rewrite (drop_underscores_plain digits 0%N eq_refl Hp).
  rewrite (c_strip_plain digits Hp).
  destruct digits as [|d r]; [apply Nat.nlt_0_r in Hlen; contradiction|].
  assert (Hd1 : ascii_digit d = true)
    by (cbn [forallb] in Hd; apply andb_true_iff in Hd as [H _]; exact H).
  rewrite (split_sign_digit d r Hd1).
  unfold nonempty_digits. rewrite Hd.
  apply Nat.ltb_lt in Hlen. rewrite Hlen. reflexivity.
Qed.

(** A line whose leading integer [int] refuses is skipped: the error
    is raised inside the [try]. *)
Lemma unreadable_quantity_skipped
    (raw_line : str) (qty_match : found) (e : exn) :
  re_match U (leading_quantity U) (strip raw_line) = Some qty_match ->
  py_int U (group (strip raw_line) qty_match 1) = Raises e ->
  vtn_line U raw_line = None.
Proof.
  intros Hm Hn. unfold vtn_line.
  destruct (strip raw_line) as [|c0 t0]; [reflexivity|].
  destruct (str_in _ vtn_keywords); [reflexivity|].
  destruct (_ <? 2)%nat; [reflexivity|].
  unfold vtn_try.
  destruct (last_two _) as [[up c]|]; [|reflexivity].
  rewrite Hm. unfold bind at 1. rewrite Hn. reflexivity.
Qed.

(** ** Strategies B and C stop at the total *)

Lemma sematool_rows_stop pre t post :
  is_total_row U t = true ->
  sematool_rows U (pre ++ t :: post) = sematool_rows U pre.
Proof.
  intros Ht. unfold is_total_row in Ht.
  induction pre as [|r rest IH].
  - cbn [app sematool_rows].
    destruct (strip t) as [|c0 t0]; [discriminate|].
    rewrite Ht. reflexivity.
  - cbn [app sematool_rows]. rewrite IH. reflexivity.
Qed.

(** X6. Strategy B reads nothing after the first row that contains
    [total:]: whatever follows it has no influence on the result. *)
Theorem sematool_stops_at_total (before rows post : list str) (header t : str) :
  (forall line, In line before -> is_sematool_header U line = false) ->
  is_sematool_header U header = true ->
  is_total_row U t = true ->
  parse_sematool_format U (before ++ header :: rows ++ t :: post) =
  parse_sematool_format U (before ++ header :: rows).
Proof.
  intros Hb Hh Ht. unfold parse_sematool_format.
  rewrite !after_first_some by assumption.
  rewrite sematool_rows_stop by exact Ht. reflexivity.
Qed.



(** ** The lines of a document and the result of processing it *)

Lemma split_nonempty sep s : split sep s <> [].
Proof.
  destruct s as [|c t]; simpl; [discriminate|].
  destruct (c =? sep)%N; [discriminate|].
  destruct (split sep t); discriminate.
Qed.

Lemma split_join sep s : join [sep] (split sep s) = s.
Proof.
  induction s as [|c t IH]; [reflexivity|].
  simpl split. pose proof (split_nonempty sep t) as Hne.
  destruct (c =? sep)%N eqn:E.
  - apply N.eqb_eq in E. subst c.
    destruct (split sep t) as [|l ls]; [congruence|].
    change (join [sep] ([] :: l :: ls)) with (sep :: join [sep] (l :: ls)).
    rewrite IH. reflexivity.
  - destruct (split sep t) as [|l ls]; [congruence|].
    destruct ls as [|l2 ls'].
    + simpl in *. rewrite IH. reflexivity.
    + change (join [sep] ((c :: l) :: l2 :: ls'))
        with (c :: (l ++ [sep] ++ join [sep] (l2 :: ls'))).
      change (join [sep] (l :: l2 :: ls'))
        with (l ++ [sep] ++ join [sep] (l2 :: ls')) in IH.
      rewrite IH. reflexivity.
Qed.

Lemma split_without sep s :
  Forall (fun l => forallb (fun c => negb (c =? sep)%N) l = true) (split sep s).
Proof.
  induction s as [|c t IH]; simpl; [repeat constructor|].
  destruct (c =? sep)%N eqn:E.
  - constructor; [reflexivity|exact IH].
  - destruct (split sep t) as [|l ls]; [repeat constructor; simpl; rewrite E; reflexivity|].
    inversion IH; subst. constructor; [|assumption].
    simpl. rewrite E. assumption.
Qed.

(** X8. The lines that the text extraction hands over are the text of all
    pages, cut at the newlines: joined by newlines they give that text
    back, none of them contains a newline, and there is at least one
    line; when the document cannot be read there is no line. *)
Theorem extracted_lines (w : world) (pdf_path : str) :
  match page_texts w pdf_path with
  | Some pages =>
      exists lines,
        extract_text_from_pdf w pdf_path = (lines, true) /\
        join [10%N] lines = List.concat pages /\
        lines <> [] /\
        Forall (fun l => forallb (fun c => negb (c =? 10)%N) l = true) lines
  | None => extract_text_from_pdf w pdf_path = ([], false)
  end.
Proof.
  unfold extract_text_from_pdf.
  destruct (page_texts w pdf_path) as [pages|]; [|reflexivity].
  exists (split 10%N (List.concat pages)).
  split; [reflexivity|]. split; [apply split_join|].
  split; [apply split_nonempty|apply split_without].
Qed.

(** X9. The result of processing one document: it names the document; it
    is a success exactly when it has no error, and exactly when it has
    quote groups; a success carries the groups that [parse] returns for
    the extracted lines; a failure names its cause: the path does not
    exist, the text cannot be extracted, or [parse] returns no group. *)
Theorem process_single_pdf_result (w : world) (pdf_path : str) (r : result) :
  process_single_pdf U w pdf_path = Returns r ->
  file r = pdf_path /\
  (success r = true <-> error r = None) /\
  (success r = true <-> quotes r <> []) /\
  (success r = true ->
     path_exists w pdf_path = true /\
     exists lines, extract_text_from_pdf w pdf_path = (lines, true) /\
                   parse U lines = Returns (quotes r)) /\
  (success r = false ->
     (path_exists w pdf_path = false /\ error r = Some (u "File not found")) \/
     (path_exists w pdf_path = true /\ page_texts w pdf_path = None /\
      error r = Some (u "Could not extract text from PDF")) \/
     (path_exists w pdf_path = true /\
      (exists lines, extract_text_from_pdf w pdf_path = (lines, true) /\
                     parse U lines = Returns []) /\
      error r = Some (u "No quote data could be extracted"))).
Proof.
  unfold process_single_pdf.
  destruct (path_exists w pdf_path) eqn:Ex; simpl negb; cbv iota.
  - destruct (extract_text_from_pdf w pdf_path) as [lines ok] eqn:El.
    destruct ok; simpl negb; cbv iota.
    + unfold bind, parse.
      destruct (detect_format_and_parse U lines) as [gs|] eqn:Ep; [|discriminate].
      destruct gs as [|g gs']; simpl is_empty; cbv iota;
        intros H; inversion H; subst; clear H; simpl.
      * split; [reflexivity|]. split; [split; discriminate|].
        split; [split; [discriminate|congruence]|].
        split; [discriminate|]. intros _. right. right.
        split; [reflexivity|]. split; [|reflexivity].
        exists lines. split; [reflexivity|exact Ep].
      * split; [reflexivity|]. split; [split; reflexivity|].
        split; [split; [discriminate|reflexivity]|].
        split; [|discriminate]. intros _. split; [reflexivity|].
        exists lines. split; [reflexivity|exact Ep].
    + intros H; inversion H; subst; clear H; simpl.
      split; [reflexivity|]. split; [split; discriminate|].
      split; [split; [discriminate|congruence]|].
      split; [discriminate|]. intros _. right. left.
      split; [reflexivity|]. split; [|reflexivity].
      unfold extract_text_from_pdf in El.
      destruct (page_texts w pdf_path); [discriminate|reflexivity].
  - intros H; inversion H; subst; clear H; simpl.
    split; [reflexivity|]. split; [split; discriminate|].
    split; [split; [discriminate|congruence]|].
    split; [discriminate|]. intros _. left. split; reflexivity.
Qed.

End Documents.

(** ** The tiers of Strategy A and what the strategies raise *)

Section Grouping.

Variable U : unicode_ext.

(** ** Tiers *)

Lemma str_eqb_eq a : forall b, str_eqb a b = true <-> a = b.
Proof.
  induction a as [|x a IH]; intros [|y b]; simpl; split; intros H;
    try reflexivity; try discriminate.
  - apply andb_true_iff in H as [H1 H2].
    apply N.eqb_eq in H1. apply IH in H2. subst. reflexivity.
  - inversion H; subst. rewrite N.eqb_refl. apply IH. reflexivity.
Qed.

Lemma str_eqb_refl a : str_eqb a a = true.
Proof. apply str_eqb_eq. reflexivity. Qed.

Lemma str_eqb_neq a b : a <> b -> str_eqb a b = false.
Proof.
  intros H. destruct (str_eqb a b) eqn:E; [|reflexivity].
  apply str_eqb_eq in E. contradiction.
Qed.

Lemma vtn_groups_fold lines :
  forall g, vtn_groups U lines g = fold_left add_item (vtn_items U lines) g.
Proof.
  induction lines as [|l rest IH]; intros g; simpl; [reflexivity|].
  destruct (vtn_line U l) as [it|]; simpl; apply IH.
Qed.

Lemma append_to_new k x g :
  ~ In k (map fst g) -> append_to k x g = g ++ [(k, [x])].
Proof.
  induction g as [|[k' l] rest IH]; simpl; intros Hn; [reflexivity|].
  rewrite str_eqb_neq by (intros ->; apply Hn; left; reflexivity).
  rewrite IH by (intros Hin; apply Hn; right; exact Hin). reflexivity.
Qed.

Lemma append_to_old k x g :
  NoDup (map fst g) -> In k (map fst g) ->
  append_to k x g =
  map (fun kv => if str_eqb k (fst kv) then (fst kv, snd kv ++ [x]) else kv) g.
Proof.
  induction g as [|[k' l] rest IH]; simpl; intros Hnd Hin; [contradiction|].
  inversion Hnd as [|? ? Hnot Hnd']; subst.
  destruct (str_eqb k k') eqn:E.
  - apply str_eqb_eq in E. subst k'. f_equal.
    symmetry. rewrite <- (map_id rest) at 2. apply map_ext_in.
    intros [k2 l2] H2. simpl.
    rewrite str_eqb_neq; [reflexivity|].
    intros ->. apply Hnot. apply in_map_iff. exists (k2, l2). split; [reflexivity|exact H2].
  - f_equal. apply IH; [exact Hnd'|].
    destruct Hin as [->|Hin]; [|exact Hin].
    rewrite str_eqb_refl in E. discriminate.
Qed.

Lemma tier_items_app k a b : tier_items k (a ++ b) = tier_items k a ++ tier_items k b.
Proof. apply filter_app. Qed.

Lemma tier_items_none k items :
  (forall it, In it items -> quantity it <> k) -> tier_items k items = [].
Proof.
  induction items as [|it rest IH]; simpl; intros H; [reflexivity|].
  rewrite str_eqb_neq by (apply H; left; reflexivity).
  apply IH. intros it' Hin. apply H. right. exact Hin.
Qed.

Lemma tier_items_one k x :
  tier_items k [x] = if str_eqb (quantity x) k then [x] else [].
Proof. reflexivity. Qed.

Lemma grouped_nil : grouped [] [].
Proof.
  repeat split; simpl; [constructor|constructor|contradiction].
Qed.

Lemma grouped_step g items x :
  grouped g items -> grouped (add_item g x) (items ++ [x]).
Proof.
  intros (Hnd & Hall & Hkeys). unfold add_item.
  destruct (in_dec (list_eq_dec N.eq_dec) (quantity x) (map fst g)) as [Hin|Hnin].
  - rewrite append_to_old by assumption.
    repeat split.
    + rewrite map_map.
      replace (map (fun kv => fst (if str_eqb (quantity x) (fst kv)
                                   then (fst kv, snd kv ++ [x]) else kv)) g)
        with (map fst g); [exact Hnd|].
      apply map_ext. intros [k l]. simpl. destruct (str_eqb _ _); reflexivity.
    + rewrite Forall_map. rewrite Forall_forall in *. intros [k l] Hkl.
      destruct (Hall _ Hkl) as [E Hne]. cbn [fst snd] in *.
      destruct (str_eqb (quantity x) k) eqn:Eq; cbn [fst snd];
        rewrite tier_items_app, tier_items_one, Eq.
      * split; [rewrite E; reflexivity|]. destruct l; discriminate.
      * split; [rewrite app_nil_r; exact E|exact Hne].
    + intros it Hit. rewrite map_map.
      replace (map (fun kv => fst (if str_eqb (quantity x) (fst kv)
                                   then (fst kv, snd kv ++ [x]) else kv)) g)
        with (map fst g).
      * apply in_app_or in Hit as [Hit|[<-|[]]]; [apply Hkeys; exact Hit|exact Hin].
      * apply map_ext. intros [k l]. simpl. destruct (str_eqb _ _); reflexivity.
  - rewrite append_to_new by assumption.
    assert (Hnone : tier_items (quantity x) items = []).
    { apply tier_items_none. intros it Hit E. apply Hnin. rewrite <- E.
      apply Hkeys. exact Hit. }
    repeat split.
    + rewrite map_app. simpl. apply NoDup_app; [exact Hnd|repeat constructor; intros []|].
      intros k Hk [<-|[]]. contradiction.
    + apply Forall_app. split.
      * rewrite Forall_forall in *. intros [k l] Hkl.
        destruct (Hall _ Hkl) as [E Hne]. cbn [fst snd] in *.
        split; [|exact Hne].
        rewrite tier_items_app, tier_items_one.
        rewrite str_eqb_neq; [rewrite app_nil_r; exact E|].
        intros Eq. apply Hnin. rewrite Eq.
        apply in_map_iff. exists (k, l). split; [reflexivity|exact Hkl].
      * constructor; [|constructor]. simpl.
        split; [|discriminate].
        rewrite tier_items_app, Hnone, tier_items_one, str_eqb_refl.
        reflexivity.
    + intros it Hit. rewrite map_app. apply in_or_app.
      apply in_app_or in Hit as [Hit|[<-|[]]].
      * left. apply Hkeys. exact Hit.
      * right. left. reflexivity.
Qed.

Lemma grouped_fold xs :
  forall g items, grouped g items -> grouped (fold_left add_item xs g) (items ++ xs).
Proof.
  induction xs as [|x rest IH]; intros g items H; simpl.
  - rewrite app_nil_r. exact H.
  - replace (items ++ x :: rest) with ((items ++ [x]) ++ rest)
      by (rewrite <- app_assoc; reflexivity).
    apply IH. apply grouped_step. exact H.
Qed.

Lemma vtn_groups_grouped lines :
  grouped (vtn_groups U lines []) (vtn_items U lines).
Proof.
  rewrite vtn_groups_fold.
  apply (grouped_fold (vtn_items U lines) grouped_nil).
Qed.

(** ** From the groups to the output of Strategy A *)

Lemma with_int_keys_spec g :
  forall keyed, with_int_keys U g = Returns keyed ->
    Forall2 (fun kv nl => py_int U (fst kv) = Returns (fst nl) /\ snd nl = snd kv)
      g keyed.
Proof.
  induction g as [|[k l] rest IH]; simpl; intros keyed H.
  - inversion H. constructor.
  - unfold bind in H.
    destruct (py_int U k) as [n|] eqn:En; [|discriminate].
    destruct (with_int_keys U rest) as [more|]; [|discriminate].
    inversion H. constructor; [split; [exact En|reflexivity]|].
    apply IH. reflexivity.
Qed.

Lemma insert_sorted_perm x l : Permutation (insert_sorted x l) (x :: l).
Proof.
  induction l as [|y rest IH]; simpl; [reflexivity|].
  destruct (fst x <=? fst y)%Z; [reflexivity|].
  rewrite IH. apply perm_swap.
Qed.

Lemma sort_by_key_perm l : Permutation (sort_by_key l) l.
Proof.
  unfold sort_by_key. induction l as [|x rest IH]; simpl; [reflexivity|].
  rewrite insert_sorted_perm, IH. reflexivity.
Qed.

Lemma insert_sorted_sorted x l :
  StronglySorted key_le l -> StronglySorted key_le (insert_sorted x l).
Proof.
  induction l as [|y rest IH]; simpl; intros Hs.
  - repeat constructor.
  - inversion Hs as [|? ? Hrest Hall]; subst.
    destruct (fst x <=? fst y)%Z eqn:E.
    + apply Z.leb_le in E. constructor; [exact Hs|].
      constructor; [exact E|].
      eapply Forall_impl; [|exact Hall]. unfold key_le. intros z Hz. lia.
    + apply Z.leb_gt in E. constructor; [apply IH; exact Hrest|].
      rewrite insert_sorted_perm. constructor; [unfold key_le; lia|exact Hall].
Qed.

Lemma sort_by_key_sorted l : StronglySorted key_le (sort_by_key l).
Proof.
  unfold sort_by_key. induction l as [|x rest IH]; simpl; [constructor|].
  apply insert_sorted_sorted. exact IH.
Qed.

Lemma format_each_spec l :
  forall gs, format_each U l = Returns gs ->
    Forall2 (fun nl g => lineItems g = snd nl) l gs.
Proof.
  induction l as [|[n items] rest IH]; simpl; intros gs H.
  - inversion H. constructor.
  - unfold bind in H. unfold format_group, bind in H.
    destruct (sum_costs U items zero); [|discriminate].
    destruct (sum_quantities U items 0%Z); [|discriminate].
    destruct (average _ _); [|discriminate].
    destruct (format_each U rest) as [more|]; [|discriminate].
    inversion H. constructor; [reflexivity|]. apply IH. reflexivity.
Qed.

Lemma Forall2_map_eq (A B C : Type) (f : A -> C) (h : B -> C) l l' :
  Forall2 (fun a b => h b = f a) l l' -> map h l' = map f l.
Proof.
  induction 1 as [|a b l l' Hab _ IH]; simpl; [reflexivity|].
  rewrite Hab, IH. reflexivity.
Qed.

(** The item lists of the output are the item lists of the groups, in
    the order of the sorted keys. *)
Lemma parse_vtn_lists lines gs :
  parse_vtn_format U lines = Returns gs ->
  exists keyed,
    Forall2 (fun kv nl => py_int U (fst kv) = Returns (fst nl) /\ snd nl = snd kv)
      (vtn_groups U lines []) keyed /\
    Forall2 (fun nl g => lineItems g = snd nl) (sort_by_key keyed) gs.
Proof.
  unfold parse_vtn_format, format_quote_groups, bind.
  destruct (with_int_keys U (vtn_groups U lines [])) as [keyed|] eqn:E; [|discriminate].
  intros H. exists keyed. split.
  - apply with_int_keys_spec. exact E.
  - apply format_each_spec. exact H.
Qed.

Lemma append_to_concat k x g :
  Permutation (List.concat (map snd (append_to k x g))) (x :: List.concat (map snd g)).
Proof.
  induction g as [|[k' l] rest IH]; simpl; [reflexivity|].
  destruct (str_eqb k k'); simpl.
  - rewrite <- app_assoc. simpl. symmetry. apply Permutation_middle.
  - rewrite IH. symmetry. apply Permutation_middle.
Qed.

Lemma fold_add_concat xs :
  forall g, Permutation (List.concat (map snd (fold_left add_item xs g)))
              (List.concat (map snd g) ++ xs).
Proof.
  induction xs as [|x rest IH]; intros g; simpl.
  - rewrite app_nil_r. reflexivity.
  - rewrite IH. unfold add_item. rewrite append_to_concat.
    simpl. apply Permutation_middle.
Qed.

(** X10. Strategy A loses no accepted item and repeats none: the line items
    of all the groups it returns are, up to their order, the items it
    accepted. *)
Theorem vtn_output_holds_accepted_items (lines : list str) (gs : list quote_group) :
  parse_vtn_format U lines = Returns gs ->
  Permutation (List.concat (map lineItems gs)) (vtn_items U lines).
Proof.
  intros H. destruct (parse_vtn_lists lines H) as (keyed & H1 & H2).
  rewrite (Forall2_map_eq snd lineItems H2).
  rewrite (Permutation_map snd (sort_by_key_perm keyed)).
  assert (E : map snd keyed = map snd (vtn_groups U lines [])).
  { apply (Forall2_map_eq snd snd).
    eapply Forall2_impl; [|exact H1]. simpl. intros a b [_ Hb]. exact Hb. }
  rewrite E, vtn_groups_fold, fold_add_concat. reflexivity.
Qed.

Lemma Forall2_in_right (A B : Type) (R : A -> B -> Prop) l l' b :
  Forall2 R l l' -> In b l' -> exists a, In a l /\ R a b.
Proof.
  induction 1 as [|a0 b0 l l' Hab _ IH]; simpl; [contradiction|].
  intros [<-|Hin].
  - exists a0. split; [left; reflexivity|exact Hab].
  - destruct (IH Hin) as (a & Ha & HR). exists a. split; [right; exact Ha|exact HR].
Qed.

(** Where each output group of Strategy A comes from. *)
Lemma parse_vtn_group_origin lines gs g :
  parse_vtn_format U lines = Returns gs -> In g gs ->
  exists k n,
    py_int U k = Returns n /\
    lineItems g = tier_items k (vtn_items U lines) /\
    lineItems g <> [].
Proof.
  intros H Hg. destruct (parse_vtn_lists lines H) as (keyed & H1 & H2).
  destruct (Forall2_in_right g H2 Hg) as ([n l] & Hnl & El). simpl in El.
  assert (Hk : In (n, l) keyed)
    by (eapply Permutation_in; [apply sort_by_key_perm|exact Hnl]).
  destruct (Forall2_in_right (n, l) H1 Hk) as ([k l'] & Hkl & Hint & Esnd).
  simpl in Hint, Esnd. subst l'.
  destruct (vtn_groups_grouped lines) as (_ & Hall & _).
  rewrite Forall_forall in Hall. destruct (Hall _ Hkl) as [E Hne]. simpl in E, Hne.
  exists k, n. rewrite El. repeat split; assumption.
Qed.

(** X11. Each group that Strategy A returns is one tier: it holds all the
    accepted items that have one and the same quantity text, in the
    order of their lines, and it holds at least one. *)
Theorem vtn_groups_are_tiers (lines : list str) (gs : list quote_group) :
  parse_vtn_format U lines = Returns gs ->
  Forall (fun g => lineItems g <> [] /\
                   exists k, lineItems g = tier_items k (vtn_items U lines)) gs.
Proof.
  intros H. apply Forall_forall. intros g Hg.
  destruct (parse_vtn_group_origin lines g H Hg) as (k & n & _ & E & Hne).
  split; [exact Hne|]. exists k. exact E.
Qed.

Lemma tier_items_quantity k items it :
  In it (tier_items k items) -> quantity it = k.
Proof.
  unfold tier_items. intros H. apply filter_In in H as [_ H].
  apply str_eqb_eq. exact H.
Qed.

Lemma Forall2_sorted (A B : Type) (R : A -> B -> Prop)
    (P : A -> A -> Prop) (Q : B -> B -> Prop) l l' :
  (forall a b a' b', R a a' -> R b b' -> P a b -> Q a' b') ->
  Forall2 R l l' -> StronglySorted P l -> StronglySorted Q l'.
Proof.
  intros HPQ. induction 1 as [|a a' l l' Ha Hl IH]; intros Hs; [constructor|].
  inversion Hs as [|? ? Hrest Hall]; subst.
  constructor; [apply IH; exact Hrest|].
  clear IH Hs Hrest. induction Hl as [|b b' l l' Hb _ IH]; [constructor|].
  inversion Hall; subst. constructor; [|apply IH; assumption].
  eapply HPQ; eassumption.
Qed.

Lemma Forall2_with_left (A B : Type) (R : A -> B -> Prop) (P : A -> Prop) l l' :
  Forall2 R l l' -> Forall P l -> Forall2 (fun a b => R a b /\ P a) l l'.
Proof.
  induction 1 as [|a b l l' Hab _ IH]; intros HP; [constructor|].
  inversion HP; subst. constructor; [split; assumption|]. apply IH. assumption.
Qed.

(** X12. Strategy A returns its groups in ascending order of quantity: no
    item of a group has a larger quantity than an item of a later
    group. *)
Theorem vtn_groups_ascending (lines : list str) (gs : list quote_group) :
  parse_vtn_format U lines = Returns gs -> StronglySorted (tier_before U) gs.
Proof.
  intros H. destruct (parse_vtn_lists lines H) as (keyed & H1 & H2).
  assert (Hkeyed : Forall (fun nl => forall it, In it (snd nl) ->
                             py_int U (quantity it) = Returns (fst nl)) keyed).
  { apply Forall_forall. intros [n l] Hnl it Hit. simpl in *.
    destruct (Forall2_in_right (n, l) H1 Hnl) as ([k l'] & Hkl & Hint & Esnd).
    simpl in Hint, Esnd. subst l'.
    destruct (vtn_groups_grouped lines) as (_ & Hall & _).
    rewrite Forall_forall in Hall. destruct (Hall _ Hkl) as [E _]. simpl in E.
    rewrite E in Hit. apply tier_items_quantity in Hit. rewrite Hit. exact Hint. }
  assert (Hsorted : Forall (fun nl => forall it, In it (snd nl) ->
                              py_int U (quantity it) = Returns (fst nl))
                      (sort_by_key keyed)).
  { eapply Permutation_Forall; [symmetry; apply sort_by_key_perm|exact Hkeyed]. }
  pose proof (Forall2_with_left H2 Hsorted) as H3.
  eapply Forall2_sorted; [|exact H3|apply sort_by_key_sorted].
  intros a b a' b' [Ea Ha] [Eb Hb] Hab it1 it2 n1 n2 Hi1 Hi2 Hn1 Hn2.
  rewrite Ea in Hi1. rewrite Eb in Hi2.
  rewrite (Ha _ Hi1) in Hn1. rewrite (Hb _ Hi2) in Hn2.
  inversion Hn1. inversion Hn2. subst. exact Hab.
Qed.

(** ** What Strategies A and B can raise *)

Lemma py_float_normalized s : readable_text U (normalize_price U s).
Proof.
  unfold readable_text.
  assert (Hshape : forall x, valid_float x -> exists y, py_float U (format_2f x) = Some y).
  { intros x Hx.
    destruct (format_2f_shape x Hx)
      as [E|[E|[E|(neg & ds & d1 & d2 & Hne & Hds & H1 & H2 & E)]]]; rewrite E.
    - eexists. vm_compute. reflexivity.
    - eexists. vm_compute. reflexivity.
    - eexists. vm_compute. reflexivity.
    - eexists. apply py_float_two_decimals; assumption. }
  destruct (normalize_price_range U s) as [E|(t & x & Hx & E)]; rewrite E.
  - apply Hshape. apply representable_zero.
  - apply Hshape. eapply py_float_valid. exact Hx.
Qed.

Lemma last_two_in l up c : last_two l = Some (up, c) -> In up l /\ In c l.
Proof.
  unfold last_two. intros H.
  destruct (rev l) as [|a [|b r]] eqn:E; try discriminate.
  inversion H; subst.
  split; apply in_rev; rewrite E; simpl; tauto.
Qed.

Lemma scanned_price_readable line p :
  In p (extract_prices_from_line U line) -> readable_text U p.
Proof.
  unfold extract_prices_from_line. intros H.
  apply in_map_iff in H as (s & <- & _). apply py_float_normalized.
Qed.

Lemma one_is_capped : exists n, py_int U (u "1") = Returns n /\ (n <= 10000)%Z.
Proof. exists 1%Z. split; [vm_compute; reflexivity|lia]. Qed.

Lemma vtn_line_sound raw_line it :
  vtn_line U raw_line = Some it -> capped_quantity U it /\ readable_cost U it.
Proof.
  unfold vtn_line.
  destruct (strip raw_line) as [|c0 t0]; [discriminate|].
  destruct (str_in _ vtn_keywords); [discriminate|].
  destruct (_ <? 2)%nat; [discriminate|].
  unfold vtn_try.
  destruct (last_two _) as [[up c]|] eqn:El; [|discriminate].
  destruct (re_match U (leading_quantity U) (c0 :: t0)) as [m|]; [|discriminate].
  unfold bind.
  destruct (py_int U _) as [n|] eqn:En; [|discriminate].
  destruct (remove_prices U _ _) as [t|]; [|discriminate].
  destruct (accepted _ _ _ _); simpl; intros H; inversion H; subst; clear H.
  unfold capped_quantity, readable_cost. simpl. split.
  - destruct (n <=? 10000)%Z eqn:E.
    + exists n. split; [exact En|apply Z.leb_le; exact E].
    + apply one_is_capped.
  - apply last_two_in in El as [_ Hc].
    eapply scanned_price_readable. exact Hc.
Qed.

Lemma sematool_try_sound line line_prices it :
  (forall p, In p line_prices -> readable_text U p) ->
  sematool_try U line line_prices = Returns (Some it) ->
  capped_quantity U it /\ readable_cost U it.
Proof.
  intros Hp. unfold sematool_try.
  destruct (last_two line_prices) as [[up c]|] eqn:El; [|discriminate].
  unfold bind at 1.
  destruct (rev (re_findall1 U (standalone_number U) _)) as [|cand more].
  - destruct (accepted _ _ _ _); intros H; inversion H; subst; clear H.
    unfold capped_quantity, readable_cost. simpl.
    split; [apply one_is_capped|].
    apply last_two_in in El as [_ Hc]. apply Hp. exact Hc.
  - unfold bind at 1.
    destruct (py_int U cand) as [n|] eqn:En; [|discriminate].
    destruct (accepted _ _ _ _); intros H; inversion H; subst; clear H.
    unfold capped_quantity, readable_cost. simpl. split.
    + destruct (n <=? 10000)%Z eqn:E.
      * exists n. split; [exact En|apply Z.leb_le; exact E].
      * apply one_is_capped.
    + apply last_two_in in El as [_ Hc]. apply Hp. exact Hc.
Qed.

Lemma sematool_rows_sound rows :
  Forall (fun it => capped_quantity U it /\ readable_cost U it)
    (sematool_rows U rows) /\
  (List.length (sematool_rows U rows) <= List.length rows)%nat.
Proof.
  induction rows as [|r rest [IH1 IH2]]; cbn [sematool_rows List.length];
    [split; [constructor|lia]|].
  destruct (strip r) as [|c0 t0]; [split; [exact IH1|lia]|].
  destruct (contains _ _); [split; [constructor|simpl; lia]|].
  destruct (_ <? 2)%nat; [split; [exact IH1|lia]|].
  destruct (sematool_try U (c0 :: t0) _) as [[it|]|] eqn:E; simpl;
    try (split; [exact IH1|lia]).
  split; [|lia]. constructor; [|exact IH1].
  eapply sematool_try_sound; [|exact E].
  intros p. apply scanned_price_readable.
Qed.

Lemma vtn_items_sound lines :
  Forall (fun it => capped_quantity U it /\ readable_cost U it) (vtn_items U lines) /\
  (List.length (vtn_items U lines) <= List.length lines)%nat.
Proof.
  induction lines as [|l rest [IH1 IH2]]; cbn [vtn_items List.length];
    [split; [constructor|lia]|].
  destruct (vtn_line U l) as [it|] eqn:E; [|split; [exact IH1|lia]].
  split; [|simpl; lia]. constructor; [|exact IH1].
  eapply vtn_line_sound. exact E.
Qed.

Local Open Scope Z_scope.

Lemma sum_costs_returns items :
  Forall (readable_cost U) items ->
  forall acc, exists c, sum_costs U items acc = Returns c.
Proof.
  induction 1 as [|it rest [x Hx] _ IH]; intros acc; simpl.
  - exists acc. reflexivity.
  - rewrite Hx. apply IH.
Qed.

Lemma sum_quantities_returns items :
  Forall (capped_quantity U) items ->
  forall acc, exists q, sum_quantities U items acc = Returns q /\
                        q <= acc + 10000 * Z.of_nat (List.length items).
Proof.
  induction 1 as [|it rest (n & Hn & Hle) _ IH]; intros acc; cbn [sum_quantities List.length].
  - exists acc. split; [reflexivity|lia].
  - unfold bind. rewrite Hn.
    destruct (IH (acc + n)) as (q & Hq & Hb).
    exists q. split; [exact Hq|lia].
Qed.

Lemma float_of_int_positive n :
  0 < n ->
  match float_of_int n with
  | Returns (Finite _ r) => r <> 0
  | Returns _ => False
  | Raises e => e = OverflowError /\ 2 ^ 1023 <= n
  end.
Proof.
  intros Hn. unfold float_of_int.
  destruct (n =? 0) eqn:E0; [apply Z.eqb_eq in E0; lia|].
  rewrite Z.abs_eq by lia.
  assert (HX : 0 < 2 ^ 1074) by (apply Z.pow_pos_nonneg; lia).
  assert (Hp : 0 <= n * 2 ^ 1074) by nia.
  assert (Hp1 : 1 <= n * 2 ^ 1074) by nia.
  rewrite round_units_unfold. cbv zeta.
  pose proof (grain_nonneg (n * 2 ^ 1074) 1) as Hg0.
  assert (Hlow : 2 ^ grain (n * 2 ^ 1074) 1 <= n * 2 ^ 1074).
  { destruct (Z.eq_dec (grain (n * 2 ^ 1074) 1) 0) as [->|Hg]; [exact Hp1|].
    pose proof (@grain_positive (n * 2 ^ 1074) 1 Hp ltac:(lia) ltac:(lia)) as H.
    rewrite Z.pow_add_r in H by lia.
    assert (0 < 2 ^ grain (n * 2 ^ 1074) 1) by (apply Z.pow_pos_nonneg; lia).
    assert (0 < 2 ^ 52) by reflexivity. nia. }
  set (g := grain (n * 2 ^ 1074) 1) in *.
  assert (HA : 0 < 2 ^ g) by (apply Z.pow_pos_nonneg; lia).
  assert (HQ : 0 < 1 * 2 ^ g) by lia.
  pose proof (rne_half Hp HQ) as Hhalf.
  assert (Hm : 1 <= rne (n * 2 ^ 1074) (1 * 2 ^ g)) by (apply rne_ge; lia).
  set (m := rne (n * 2 ^ 1074) (1 * 2 ^ g)) in *.
  destruct (m * 2 ^ g <? 2 ^ 2098) eqn:E.
  - nia.
  - apply Z.ltb_ge in E. split; [reflexivity|].
    assert (H2 : 2 ^ 2098 = 2 * (2 ^ 1023 * 2 ^ 1074))
      by (change 2 with (2 ^ 1) at 2; rewrite <- !Z.pow_add_r by lia; reflexivity).
    set (P := n * 2 ^ 1074) in *. set (A := 2 ^ g) in *.
    assert (Hv : m * A <= 2 * P).
    { replace (m * (1 * A)) with (m * A) in Hhalf by ring. clearbody P A m. lia. }
    assert (2 ^ 1023 * 2 ^ 1074 <= n * 2 ^ 1074) by (fold P; lia).
    apply Z.mul_le_mono_pos_r with (p := 2 ^ 1074); assumption.
Qed.

Lemma fdiv_by_nonzero x b r : r <> 0 -> exists y, fdiv x (Finite b r) = Returns y.
Proof.
  intros Hr. unfold fdiv.
  destruct x as [a v|a|]; destruct r as [|p|p]; try congruence;
    try (eexists; reflexivity);
    destruct (v =? 0); try (eexists; reflexivity);
    destruct (round_units _ _); eexists; reflexivity.
Qed.

Lemma average_outcome total_cost total_qty bound :
  total_qty <= 10000 * Z.of_nat bound ->
  returns_or_overflows (average total_cost total_qty) bound.
Proof.
  intros Hb. unfold average.
  destruct (0 <? total_qty) eqn:E; [|exact I].
  apply Z.ltb_lt in E. unfold fdiv_int, bind.
  pose proof (float_of_int_positive E) as H.
  destruct (float_of_int total_qty) as [[b r| |]|e]; try contradiction.
  - destruct (fdiv_by_nonzero total_cost b H) as [y Hy]. rewrite Hy. exact I.
  - destruct H as [-> H]. split; [reflexivity|lia].
Qed.

Lemma format_group_outcome items bound :
  Forall (fun it => capped_quantity U it /\ readable_cost U it) items ->
  (List.length items <= bound)%nat ->
  returns_or_overflows (format_group U items) bound.
Proof.
  intros Hs Hlen. apply Forall_and_inv in Hs as [Hq Hc].
  unfold format_group, bind.
  destruct (sum_costs_returns Hc zero) as [c Ec]. rewrite Ec.
  destruct (sum_quantities_returns Hq 0) as (q & Eq & Hb). rewrite Eq.
  pose proof (@average_outcome c q bound ltac:(lia)) as Ha.
  destruct (average c q); [exact I|exact Ha].
Qed.

Lemma consolidate_outcome items bound :
  Forall (fun it => capped_quantity U it /\ readable_cost U it) items ->
  (List.length items <= bound)%nat ->
  returns_or_overflows (consolidate U items) bound.
Proof.
  intros Hs Hlen. unfold consolidate. destruct items as [|it rest]; [exact I|].
  apply Forall_and_inv in Hs as [Hq Hc]. unfold bind.
  destruct (sum_quantities_returns Hq 0) as (q & Eq & Hb). rewrite Eq.
  destruct (sum_costs_returns Hc zero) as [c Ec]. rewrite Ec.
  pose proof (@average_outcome c q bound ltac:(lia)) as Ha.
  destruct (average c q); [exact I|exact Ha].
Qed.

Lemma format_each_outcome l bound :
  Forall (fun nl => Forall (fun it => capped_quantity U it /\ readable_cost U it) (snd nl) /\
                    (List.length (snd nl) <= bound)%nat) l ->
  returns_or_overflows (format_each U l) bound.
Proof.
  induction 1 as [|[n items] rest [Hs Hlen] _ IH]; simpl; [exact I|].
  unfold bind. cbn [snd] in Hs, Hlen.
  pose proof (format_group_outcome Hs Hlen) as Hg.
  destruct (format_group U items); [|exact Hg].
  destruct (format_each U rest); [exact I|exact IH].
Qed.

Lemma tier_items_length k items :
  (List.length (tier_items k items) <= List.length items)%nat.
Proof. apply filter_length_le. Qed.

Lemma with_int_keys_returns g items :
  grouped g items -> Forall (capped_quantity U) items ->
  exists keyed, with_int_keys U g = Returns keyed.
Proof.
  intros (_ & Hall & _) Hq. clear -Hall Hq.
  induction g as [|[k l] rest IH]; simpl; [eexists; reflexivity|].
  inversion Hall as [|? ? [E Hne] Hrest]; subst. simpl in E, Hne.
  destruct l as [|it l']; [congruence|].
  assert (Hin : In it (tier_items k items)) by (rewrite <- E; left; reflexivity).
  pose proof (tier_items_quantity _ _ _ Hin) as Hk.
  unfold tier_items in Hin. apply filter_In in Hin as [Hin _].
  rewrite Forall_forall in Hq. destruct (Hq _ Hin) as (n & Hn & _).
  rewrite Hk in Hn. unfold bind. rewrite Hn.
  destruct (IH Hrest) as [more Hm]. rewrite Hm. eexists. reflexivity.
Qed.

Lemma parse_vtn_outcome lines :
  returns_or_overflows (parse_vtn_format U lines) (List.length lines).
Proof.
  destruct (vtn_items_sound lines) as [Hs Hlen].
  pose proof (vtn_groups_grouped lines) as Hg.
  assert (Hq : Forall (capped_quantity U) (vtn_items U lines))
    by (eapply Forall_impl; [|exact Hs]; intros it [H _]; exact H).
  destruct (with_int_keys_returns Hg Hq) as [keyed Hk].
  unfold parse_vtn_format, format_quote_groups, bind. rewrite Hk.
  apply format_each_outcome.
  eapply Permutation_Forall; [symmetry; apply sort_by_key_perm|].
  apply Forall_forall. intros [n l] Hnl.
  destruct (Forall2_in_right (n, l) (with_int_keys_spec _ Hk) Hnl)
    as ([k l'] & Hkl & _ & Esnd).
  simpl in Esnd. subst l'. simpl.
  destruct Hg as (_ & Hall & _). rewrite Forall_forall in Hall.
  destruct (Hall _ Hkl) as [E _]. simpl in E. rewrite E. split.
  - apply Forall_forall. intros it Hit. unfold tier_items in Hit.
    apply filter_In in Hit as [Hit _]. rewrite Forall_forall in Hs. apply Hs. exact Hit.
  - pose proof (tier_items_length k (vtn_items U lines)). lia.
Qed.

Lemma after_first_length (p : str -> bool) lines rows :
  after_first p lines = Some rows -> (List.length rows <= List.length lines)%nat.
Proof.
  revert rows. induction lines as [|l rest IH]; simpl; intros rows H; [discriminate|].
  destruct (p l); [inversion H; subst; lia|]. specialize (IH _ H). lia.
Qed.

Lemma parse_sematool_outcome lines :
  returns_or_overflows (parse_sematool_format U lines) (List.length lines).
Proof.
  unfold parse_sematool_format.
  destruct (after_first (is_sematool_header U) lines) as [rows|] eqn:E; [|exact I].
  destruct (sematool_rows_sound rows) as [Hs Hlen].
  apply consolidate_outcome; [exact Hs|].
  apply after_first_length in E. lia.
Qed.

(** X13. Strategies A and B raise nothing but [OverflowError]: neither the
    missing [re.rsplit], nor a quantity or a price that cannot be read,
    nor a division by zero ever leaves them. *)
Theorem vtn_and_sematool_only_overflow (lines : list str) :
  ((exists gs, parse_vtn_format U lines = Returns gs) \/
   parse_vtn_format U lines = Raises OverflowError) /\
  ((exists gs, parse_sematool_format U lines = Returns gs) \/
   parse_sematool_format U lines = Raises OverflowError).
Proof.
  split.
  - pose proof (parse_vtn_outcome lines) as H.
    destruct (parse_vtn_format U lines) as [gs|e]; [left; exists gs; reflexivity|].
    destruct H as [-> _]. right. reflexivity.
  - pose proof (parse_sematool_outcome lines) as H.
    destruct (parse_sematool_format U lines) as [gs|e]; [left; exists gs; reflexivity|].
    destruct H as [-> _]. right. reflexivity.
Qed.

(** X14. Strategies A and B return on every document of fewer than 2^1000
    lines. *)
Theorem vtn_and_sematool_return (lines : list str) :
  Z.of_nat (List.length lines) < 2 ^ 1000 ->
  (exists gs, parse_vtn_format U lines = Returns gs) /\
  (exists gs, parse_sematool_format U lines = Returns gs).
Proof.
  intros Hlen.
  assert (Hb : 10000 * Z.of_nat (List.length lines) < 2 ^ 1023).
  { assert (2 ^ 1023 = 2 ^ 23 * 2 ^ 1000)
      by (rewrite <- Z.pow_add_r by lia; reflexivity).
    assert (10000 < 2 ^ 23) by reflexivity.
    set (T := 2 ^ 1000) in *. set (B := 2 ^ 1023) in *.
    change (2 ^ 23) with 8388608 in *. clearbody T B. lia. }
  split.
  - pose proof (parse_vtn_outcome lines) as H.
    destruct (parse_vtn_format U lines) as [gs|e]; [exists gs; reflexivity|].
    destruct H as [_ H]. lia.
  - pose proof (parse_sematool_outcome lines) as H.
    destruct (parse_sematool_format U lines) as [gs|e]; [exists gs; reflexivity|].
    destruct H as [_ H]. lia.
Qed.

Local Close Scope Z_scope.

(** ** Groups and their items *)

Lemma consolidate_items items gs :
  consolidate U items = Returns gs ->
  Forall (fun g => lineItems g = items /\ items <> []) gs.
Proof.
  unfold consolidate, bind. destruct items as [|it rest].
  - intros H. inversion H. constructor.
  - destruct (sum_quantities U (it :: rest) 0%Z); [|discriminate].
    destruct (sum_costs U (it :: rest) zero); [|discriminate].
    destruct (average _ _); [|discriminate].
    intros H. inversion H. constructor; [|constructor].
    split; [reflexivity|discriminate].
Qed.

Lemma consolidate_has_items items gs :
  consolidate U items = Returns gs -> Forall (fun g => lineItems g <> []) gs.
Proof.
  intros H. eapply Forall_impl; [|apply (consolidate_items _ H)].
  simpl. intros g [-> Hne]. exact Hne.
Qed.

(** X15. No strategy returns a group without line items. *)
Theorem parsed_groups_have_items (lines : list str) (gs : list quote_group) :
  parse U lines = Returns gs -> Forall (fun g => lineItems g <> []) gs.
Proof.
  assert (HA : forall gs', parse_vtn_format U lines = Returns gs' ->
                           Forall (fun g => lineItems g <> []) gs').
  { intros gs' H. apply Forall_forall. intros g Hg.
    destruct (parse_vtn_group_origin lines g H Hg) as (k & n & _ & _ & Hne).
    exact Hne. }
  assert (HB : forall gs', parse_sematool_format U lines = Returns gs' ->
                           Forall (fun g => lineItems g <> []) gs').
  { intros gs'. unfold parse_sematool_format.
    destruct (after_first (is_sematool_header U) lines).
    - apply consolidate_has_items.
    - intros H. inversion H. constructor. }
  assert (HC : forall gs', parse_thirtytwo_machine_format U lines = Returns gs' ->
                           Forall (fun g => lineItems g <> []) gs').
  { intros gs'. unfold parse_thirtytwo_machine_format.
    destruct (after_first (is_thirtytwo_header U) lines).
    - apply consolidate_has_items.
    - intros H. inversion H. constructor. }
  unfold parse, detect_format_and_parse.
  destruct (contains (u "VTN MANUFACTURING") _); [apply HA|].
  destruct (contains (u "SEMATOOL") _); [apply HB|].
  destruct (_ || _); [apply HC|].
  unfold bind.
  destruct (parse_vtn_format U lines) as [r1|] eqn:H1; [|discriminate].
  destruct (is_empty r1) eqn:E1.
  - destruct (parse_sematool_format U lines) as [r2|] eqn:H2; [|discriminate].
    destruct (is_empty r2).
    + apply HC.
    + intros H. inversion H. subst. apply HB. reflexivity.
  - rewrite E1. intros H. inversion H. subst. apply HA. reflexivity.
Qed.

(** X16. In Strategies A and B the quantity of every line item is a text
    that [int] reads, with a value of at most 10000. *)
Theorem quantities_are_capped (lines : list str) (gs : list quote_group) :
  parse_vtn_format U lines = Returns gs \/
  parse_sematool_format U lines = Returns gs ->
  Forall (fun g => Forall (capped_quantity U) (lineItems g)) gs.
Proof.
  intros [H|H].
  - apply Forall_forall. intros g Hg.
    destruct (parse_vtn_group_origin lines g H Hg) as (k & n & _ & E & _).
    rewrite E. apply Forall_forall. intros it Hit.
    unfold tier_items in Hit. apply filter_In in Hit as [Hit _].
    destruct (vtn_items_sound lines) as [Hs _].
    rewrite Forall_forall in Hs. apply Hs. exact Hit.
  - unfold parse_sematool_format in H.
    destruct (after_first (is_sematool_header U) lines) as [rows|];
      [|inversion H; constructor].
    eapply Forall_impl; [|apply (consolidate_items _ H)].
    simpl. intros g [-> _].
    destruct (sematool_rows_sound rows) as [Hs _].
    eapply Forall_impl; [|exact Hs]. simpl. intros it [Hq _]. exact Hq.
Qed.

End Grouping.

(** ** Texts in which a pattern cannot match *)

Section Matching.

Variable U : unicode_ext.

(** ** Texts in which a pattern cannot match *)

Lemma suffix_of_refl s : suffix_of s s.
Proof. exists []. reflexivity. Qed.

Lemma suffix_of_trans a b c : suffix_of a b -> suffix_of b c -> suffix_of a c.
Proof.
  intros [w1 ->] [w2 ->]. exists (w2 ++ w1). rewrite app_assoc. reflexivity.
Qed.

Lemma suffix_of_tail c t : suffix_of t (c :: t).
Proof. exists [c]. reflexivity. Qed.

Lemma without_suffix p s' s : suffix_of s' s -> without p s -> without p s'.
Proof.
  intros [w ->] H. unfold without in *. apply Forall_app in H as [_ H]. exact H.
Qed.

Lemma star_run_none p (k : mstate -> option mstate) s :
  forall n pv cs,
    (forall st', suffix_of (rest st') s -> k st' = None) ->
    star_run p n pv s cs k = None.
Proof.
  induction s as [|c t IH]; intros n pv cs Hk; simpl.
  - apply Hk. apply suffix_of_refl.
  - assert (Hhere : k {| pos := n; prev := pv; rest := c :: t; caps := cs |} = None)
      by (apply Hk; apply suffix_of_refl).
    destruct (p c); [|exact Hhere].
    rewrite IH; [exact Hhere|].
    intros st' Hs. apply Hk. eapply suffix_of_trans; [exact Hs|apply suffix_of_tail].
Qed.

(** A pattern whose every continuation fails, fails. *)
Lemma run_none r :
  forall st k,
    (forall st', suffix_of (rest st') (rest st) -> k st' = None) ->
    run U r st k = None.
Proof.
  induction r as [|c|c|p|r1 IH1 r2 IH2|r1 IH1 r2 IH2|r1 IH1|p| | | |r1 IH1];
    intros st k Hk; simpl.
  - apply Hk, suffix_of_refl.
  - destruct (rest st) as [|x t] eqn:E; [reflexivity|].
    destruct (x =? c)%N; [|reflexivity]. apply Hk. simpl. apply suffix_of_tail.
  - destruct (rest st) as [|x t] eqn:E; [reflexivity|].
    destruct (ignorecase U c x); [|reflexivity]. apply Hk. simpl. apply suffix_of_tail.
  - destruct (rest st) as [|x t] eqn:E; [reflexivity|].
    destruct (p x); [|reflexivity]. apply Hk. simpl. apply suffix_of_tail.
  - apply IH1. intros st1 H1. apply IH2. intros st2 H2.
    apply Hk. eapply suffix_of_trans; eassumption.
  - rewrite IH1 by exact Hk. apply IH2. exact Hk.
  - rewrite IH1 by exact Hk. apply Hk, suffix_of_refl.
  - apply star_run_none. exact Hk.
  - destruct (pos st); [apply Hk, suffix_of_refl|reflexivity].
  - destruct (rest st) as [|c [|c' t]] eqn:E.
    + apply Hk. rewrite E. apply suffix_of_refl.
    + destruct (c =? 10)%N; [|reflexivity]. apply Hk. rewrite E. apply suffix_of_refl.
    + reflexivity.
  - destruct (xorb _ _); [apply Hk, suffix_of_refl|reflexivity].
  - apply IH1. intros st' Hs. apply Hk. simpl. exact Hs.
Qed.

Lemma needs_class p : needs U p (Cls p).
Proof.
  intros st k H. simpl. destruct (rest st) as [|x t]; [reflexivity|].
  inversion H as [|? ? Hx _]; subst. rewrite Hx. reflexivity.
Qed.

Lemma needs_cat p r1 r2 : needs U p r1 -> needs U p (Cat r1 r2).
Proof. intros H st k Hw. simpl. apply H. exact Hw. Qed.

Lemma needs_group p r : needs U p r -> needs U p (Group r).
Proof. intros H st k Hw. simpl. apply H. exact Hw. Qed.

Lemma needs_plus p : needs U p (Plus p).
Proof. apply needs_cat, needs_class. Qed.

Lemma needs_after p r1 r2 : needs U p r2 -> needs U p (Cat r1 r2).
Proof.
  intros H st k Hw. simpl. apply run_none. intros st' Hs.
  apply H. eapply without_suffix; eassumption.
Qed.

Lemma match_at_none p r n pv s :
  needs U p r -> without p s -> match_at U r n pv s = None.
Proof.
  intros H Hw. unfold match_at. rewrite H; [reflexivity|exact Hw].
Qed.

Lemma scan_none p r s :
  needs U p r -> without p s -> forall n pv skip, scan U r n pv s skip = [].
Proof.
  intros H. induction s as [|c t IH]; intros Hw n pv skip; simpl.
  - destruct skip; [|reflexivity].
    rewrite (match_at_none n pv H Hw). reflexivity.
  - assert (Ht : without p t) by (inversion Hw; assumption).
    destruct skip; [|apply IH; exact Ht].
    rewrite (match_at_none n pv H Hw). apply IH. exact Ht.
Qed.

Lemma search_none p r s :
  needs U p r -> without p s -> forall n pv, search_go U r n pv s = None.
Proof.
  intros H. induction s as [|c t IH]; intros Hw n pv; simpl.
  - rewrite (match_at_none n pv H Hw). reflexivity.
  - rewrite (match_at_none n pv H Hw). apply IH. inversion Hw; assumption.
Qed.

(** ** Documents without numbers *)

Lemma needs_price_decimal : needs U (digit_or_comma U) (price_pattern_decimal U).
Proof.
  unfold price_pattern_decimal, Seq. cbn [fold_right].
  do 3 apply needs_after. apply needs_cat, needs_plus.
Qed.

Lemma needs_price_integer : needs U (digit_or_comma U) (price_pattern_integer U).
Proof.
  unfold price_pattern_integer, Seq. cbn [fold_right].
  do 3 apply needs_after. apply needs_cat, needs_plus.
Qed.

Lemma needs_total_decimal : needs U (digit_or_comma U) (total_price_decimal U).
Proof.
  unfold total_price_decimal, Seq. cbn [fold_right].
  apply needs_after. apply needs_cat, needs_plus.
Qed.

Lemma needs_total_integer : needs U (digit_or_comma U) (total_price_integer U).
Proof.
  unfold total_price_integer, Seq. cbn [fold_right].
  apply needs_after. apply needs_cat, needs_plus.
Qed.

Lemma needs_line_item_end : needs U (is_digit U) (line_item_end_pattern U).
Proof.
  unfold line_item_end_pattern, Seq. cbn [fold_right].
  apply needs_cat, needs_group, needs_plus.
Qed.

Lemma without_digits s : without (digit_or_comma U) s -> without (is_digit U) s.
Proof.
  unfold without. apply Forall_impl. intros c H.
  unfold digit_or_comma in H. apply orb_false_iff in H as [H _]. exact H.
Qed.

Lemma drop_while_suffix p s : suffix_of (drop_while p s) s.
Proof.
  induction s as [|c t IH]; simpl; [apply suffix_of_refl|].
  destruct (p c); [|apply suffix_of_refl].
  eapply suffix_of_trans; [exact IH|apply suffix_of_tail].
Qed.

Lemma without_strip p s : without p s -> without p (strip s).
Proof.
  intros H. unfold strip, without.
  apply Forall_rev.
  eapply without_suffix; [apply drop_while_suffix|].
  unfold without. apply Forall_rev.
  eapply without_suffix; [apply drop_while_suffix|exact H].
Qed.

Lemma no_prices line :
  without (digit_or_comma U) line -> extract_prices_from_line U line = [].
Proof.
  intros H. unfold extract_prices_from_line, patterns, re_findall, re_finditer.
  cbn [flat_map].
  rewrite (scan_none needs_price_decimal H), (scan_none needs_price_integer H).
  reflexivity.
Qed.

Lemma vtn_line_number_free raw_line :
  without (digit_or_comma U) raw_line -> vtn_line U raw_line = None.
Proof.
  intros H. apply (without_strip (p := digit_or_comma U)) in H. unfold vtn_line.
  destruct (strip raw_line) as [|c0 t0]; [reflexivity|].
  destruct (str_in _ vtn_keywords); [reflexivity|].
  rewrite (no_prices H). reflexivity.
Qed.

Lemma vtn_groups_number_free lines :
  (forall line, In line lines -> without (digit_or_comma U) line) ->
  forall g, vtn_groups U lines g = g.
Proof.
  induction lines as [|l rest IH]; intros H g; simpl; [reflexivity|].
  rewrite vtn_line_number_free by (apply H; left; reflexivity).
  apply IH. intros line Hin. apply H. right. exact Hin.
Qed.

Lemma sematool_rows_number_free rows :
  (forall line, In line rows -> without (digit_or_comma U) line) ->
  sematool_rows U rows = [].
Proof.
  induction rows as [|r rest IH]; intros H; cbn [sematool_rows]; [reflexivity|].
  assert (IH' : sematool_rows U rest = [])
    by (apply IH; intros line Hin; apply H; right; exact Hin).
  assert (Hr : without (digit_or_comma U) (strip r))
    by (apply without_strip, H; left; reflexivity).
  destruct (strip r) as [|c0 t0]; [exact IH'|].
  destruct (contains _ _); [reflexivity|].
  rewrite (no_prices Hr). exact IH'.
Qed.

Lemma thirtytwo_rows_number_free rows :
  (forall line, In line rows -> without (digit_or_comma U) line) ->
  forall buffer, thirtytwo_rows U rows buffer [] = [].
Proof.
  induction rows as [|r rest IH]; intros H buffer; cbn [thirtytwo_rows]; [reflexivity|].
  assert (IH' : forall b, thirtytwo_rows U rest b [] = [])
    by (apply IH; intros line Hin; apply H; right; exact Hin).
  assert (Hr : without (digit_or_comma U) (strip r))
    by (apply without_strip, H; left; reflexivity).
  destruct (strip r) as [|c0 t0]; [apply IH'|].
  destruct (contains (u "total") (lower U (c0 :: t0)) && _); [reflexivity|].
  unfold re_search.
  rewrite (search_none needs_line_item_end (without_digits Hr)). apply IH'.
Qed.

Lemma after_first_in (p : str -> bool) lines rows :
  after_first p lines = Some rows -> forall l, In l rows -> In l lines.
Proof.
  revert rows. induction lines as [|x rest IH]; simpl; intros rows H l Hl; [discriminate|].
  destruct (p x); [inversion H; subst; right; exact Hl|].
  right. eapply IH; eassumption.
Qed.

Lemma vtn_number_free lines :
  (forall line, In line lines -> without (digit_or_comma U) line) ->
  parse_vtn_format U lines = Returns [].
Proof.
  intros H. unfold parse_vtn_format.
  rewrite vtn_groups_number_free by exact H. reflexivity.
Qed.

Lemma sematool_number_free lines :
  (forall line, In line lines -> without (digit_or_comma U) line) ->
  parse_sematool_format U lines = Returns [].
Proof.
  intros H. unfold parse_sematool_format.
  destruct (after_first (is_sematool_header U) lines) as [rows|] eqn:E; [|reflexivity].
  rewrite sematool_rows_number_free; [reflexivity|].
  intros line Hin. apply H. eapply after_first_in; eassumption.
Qed.

Lemma thirtytwo_number_free lines :
  (forall line, In line lines -> without (digit_or_comma U) line) ->
  parse_thirtytwo_machine_format U lines = Returns [].
Proof.
  intros H. unfold parse_thirtytwo_machine_format.
  destruct (after_first (is_thirtytwo_header U) lines) as [rows|] eqn:E; [|reflexivity].
  rewrite thirtytwo_rows_number_free; [reflexivity|].
  intros line Hin. apply H. eapply after_first_in; eassumption.
Qed.

Lemma parse_number_free lines :
  (forall line, In line lines -> without (digit_or_comma U) line) ->
  parse U lines = Returns [].
Proof.
  intros H. unfold parse, detect_format_and_parse.
  rewrite (vtn_number_free lines H), (sematool_number_free lines H),
    (thirtytwo_number_free lines H).
  unfold bind. simpl is_empty. cbv iota.
  destruct (contains (u "VTN MANUFACTURING") _); [reflexivity|].
  destruct (contains (u "SEMATOOL") _); [reflexivity|].
  destruct (_ || _); reflexivity.
Qed.

(** X17. A document without any decimal digit and without any comma yields
    no quote group: none from any of the three strategies, whatever
    headers and keywords it contains, and none from the detection. *)
Theorem number_free_document_yields_nothing (lines : list str) :
  (forall line, In line lines -> without (digit_or_comma U) line) ->
  parse_vtn_format U lines = Returns [] /\
  parse_sematool_format U lines = Returns [] /\
  parse_thirtytwo_machine_format U lines = Returns [] /\
  parse U lines = Returns [].
Proof.
  intros H.
  split; [apply vtn_number_free; exact H|].
  split; [apply sematool_number_free; exact H|].
  split; [apply thirtytwo_number_free; exact H|].
  apply parse_number_free; exact H.
Qed.

Lemma split_chars sep s :
  forall l, In l (split sep s) -> forall c, In c l -> In c s.
Proof.
  induction s as [|x t IH]; simpl; intros l Hl c Hc.
  - destruct Hl as [<-|[]]. contradiction.
  - destruct (x =? sep)%N.
    + destruct Hl as [<-|Hl]; [contradiction|]. right. eapply IH; eassumption.
    + destruct (split sep t) as [|l0 ls] eqn:E.
      * destruct Hl as [<-|[]]. destruct Hc as [<-|[]]. left. reflexivity.
      * destruct Hl as [<-|Hl].
        -- destruct Hc as [<-|Hc]; [left; reflexivity|].
           right. apply (IH l0); [left; reflexivity|exact Hc].
        -- right. apply (IH l); [right; exact Hl|exact Hc].
Qed.

(** X18. A document that exists and can be read, but whose pages hold no
    decimal digit and no comma, is reported as a failure for which no
    quote data could be extracted. *)
Theorem number_free_pdf_is_reported (w : world) (pdf_path : str) (pages : list str) :
  path_exists w pdf_path = true ->
  page_texts w pdf_path = Some pages ->
  without (digit_or_comma U) (List.concat pages) ->
  process_single_pdf U w pdf_path =
    Returns {| file := pdf_path; success := false;
               error := Some (u "No quote data could be extracted");
               quotes := [] |}.
Proof.
  intros Hex Hpages Hfree. unfold process_single_pdf, extract_text_from_pdf.
  rewrite Hex, Hpages. simpl negb. cbv iota.
  assert (Hlines : forall line, In line (split 10%N (List.concat pages)) ->
                                without (digit_or_comma U) line).
  { intros line Hin. unfold without in *. rewrite Forall_forall in *.
    intros c Hc. apply Hfree. eapply split_chars; eassumption. }
  pose proof (parse_number_free _ Hlines) as Hp.
  unfold parse in Hp. rewrite Hp. reflexivity.
Qed.

End Matching.

(** * The properties on concrete documents *)

(** C5, refuted as stated: in the line [5 3.00] the scanner finds the
    decimal price at offset 1 first and only then the integer at
    offset 0, so its result is not in the order of the line. *)
Lemma prices_not_in_line_order :
  starts (price_matches ascii_only (u "5 3.00")) = [1; 0; 1; 4]%nat /\
  nondecreasing (starts (price_matches ascii_only (u "5 3.00"))) = false /\
  extract_prices_from_line ascii_only (u "5 3.00") =
    [u "3.00"; u "5.00"; u "3.00"; u "0.00"].
Proof. evaluate. Qed.

(** C6, refuted as stated: no line of the document contains all five
    column names, and Strategy B returns a group. *)
Lemma sematool_accepts_partial_header :
  forallb (fun line => negb (has_all_headers ascii_only line))
    one_column_document = true /\
  parse_sematool_format ascii_only one_column_document =
    Returns [ {| group_quantity := u "1";
                 group_unitPrice := u "3.00";
                 totalPrice := u "3.00";
                 lineItems := [ {| description := u "Bolt";
                                   quantity := u "1";
                                   unitPrice := u "2.00";
                                   cost := u "3.00" |} ] |} ] /\
  parse_sematool_format ascii_only one_column_document <> Returns [].
Proof.
  split; [vm_compute; reflexivity|].
  split; [vm_compute; reflexivity|].
  vm_compute. discriminate.
Qed.

(** The theorem on the header of Strategy B, at two documents: one
    without any column name, one whose first line names one column. *)
Lemma sematool_header_witness :
  parse_sematool_format ascii_only [u "Bolt 2 3"] = Returns [] /\
  parse_sematool_format ascii_only one_column_document =
    consolidate ascii_only (sematool_rows ascii_only [u "Bolt 2 3"]).
Proof.
  split.
  - apply (proj1 (sematool_header_is_any_column_name ascii_only [u "Bolt 2 3"])).
    intros line [<-|[]]. vm_compute. reflexivity.
  - apply (proj2 (sematool_header_is_any_column_name ascii_only one_column_document)
             [] (u "Price") [u "Bolt 2 3"]).
    + reflexivity.
    + intros line [].
    + vm_compute. reflexivity.
Defined.

(** C3, refuted as stated: the two costs 0.06 and 0.01 add up, in
    floating point, to a little less than 0.07; the group shows the
    total price 0.07 and the quantity 2, and its unit price is 0.03,
    while 0.07 divided by 2 is 0.035 and rounds to 0.04, both in
    floating point and exactly. *)
Lemma unit_price_not_total_over_quantity :
  exists g : quote_group,
    parse ascii_only two_block_document = Returns [g] /\
    group_quantity g = u "2" /\
    totalPrice g = u "0.07" /\
    group_unitPrice g = u "0.03" /\
    spec_unit_price ascii_only g = Returns (u "0.04") /\
    rne 7 2 = 4%Z.
Proof.
  eexists. split; [vm_compute; reflexivity|].
  evaluate.
Qed.

(** The theorem on the aggregates, at the document with two blocks. *)
Lemma parsed_groups_consistent_witness :
  exists gs : list quote_group,
    parse ascii_only two_block_document = Returns gs /\
    gs <> [] /\
    Forall (consistent ascii_only) gs.
Proof.
  eexists. split; [vm_compute; reflexivity|].
  split; [discriminate|].
  apply (parsed_groups_consistent ascii_only two_block_document).
  vm_compute. reflexivity.
Defined.

(** The theorem on the leading quantity, at a line that starts with
    20000: the item has quantity 1 and the text after the integer as
    its description. *)
Lemma over_limit_quantity_witness :
  vtn_line ascii_only (u "20000 Widget 5.5") =
    Some {| description := u "Widget 5.5";
            quantity := u "1";
            unitPrice := u "5.00";
            cost := u "5.00" |}.
Proof.
  apply (proj2 (@over_limit_quantity_defaults_to_one ascii_only
                  (u "20000 Widget 5.5")
                  (0%nat, {| pos := 6; prev := Some 32%N;
                             rest := u "Widget 5.5"; caps := [(0, 5)%nat] |})
                  20000%Z
                  ltac:(vm_compute; reflexivity)
                  ltac:(vm_compute; reflexivity)
                  ltac:(reflexivity))
           (u "5.00") (u "5.00") (u "Widget 5.5"));
    vm_compute; reflexivity.
Defined.

(** ** The further properties on concrete documents *)

(** The theorem on the rejection test, at the document with two tiers. *)
Lemma parsed_items_passed_test_witness :
  exists gs : list quote_group,
    parse ascii_only tiered_document = Returns gs /\
    gs <> [] /\
    Forall items_passed gs.
Proof.
  eexists. split; [vm_compute; reflexivity|].
  split; [discriminate|].
  apply (@parsed_items_passed_test ascii_only tiered_document).
  vm_compute. reflexivity.
Defined.

(** The theorem on small prices, at minus 1234.56. *)
Lemma small_price_unchanged_witness :
  (0 <= 123456 < 10 ^ 15)%Z /\
  normalize_price ascii_only (u "-1234.56") = u "-1234.56".
Proof.
  split; [split; [discriminate|reflexivity]|].
  apply (@small_price_unchanged ascii_only true 123456%Z).
  split; [discriminate|reflexivity].
Defined.

(** The theorem on the description of Strategy A, at a line whose
    description keeps the text 5.5. *)
Lemma vtn_description_keeps_prices_witness :
  vtn_line ascii_only (u "5 Widget 5.5") =
    Some {| description := u "Widget 5.5"; quantity := u "5";
            unitPrice := u "5.00"; cost := u "5.00" |} /\
  exists qty_match,
    re_match ascii_only (leading_quantity ascii_only) (strip (u "5 Widget 5.5")) =
      Some qty_match /\
    last_two (extract_prices_from_line ascii_only (strip (u "5 Widget 5.5"))) =
      Some (u "5.00", u "5.00") /\
    u "Widget 5.5" =
      strip (re_sub ascii_only item_code_pattern
               (strip (strip (skipn (pos (snd qty_match))
                                (strip (u "5 Widget 5.5")))))).
Proof.
  split; [vm_compute; reflexivity|].
  apply (@vtn_description_keeps_prices ascii_only (u "5 Widget 5.5")
           {| description := u "Widget 5.5"; quantity := u "5";
              unitPrice := u "5.00"; cost := u "5.00" |}).
  vm_compute. reflexivity.
Defined.

(** The theorem on the total row of Strategy B: the row after the
    total row is not read. *)
Lemma sematool_stops_at_total_witness :
  parse_sematool_format ascii_only document_with_total =
  parse_sematool_format ascii_only one_column_document.
Proof.
  apply (@sematool_stops_at_total ascii_only [] [u "Bolt 2 3"] [u "Nut 4 5"]
           (u "Price") (u "Total: 3")).
  - intros line [].
  - vm_compute. reflexivity.
  - vm_compute. reflexivity.
Defined.


(** The theorem on the result of processing, at a document that
    yields a group. *)
Lemma process_single_pdf_result_witness :
  exists r : result,
    process_single_pdf ascii_only (one_page_world one_column_page) (u "q.pdf") =
      Returns r /\
    success r = true /\
    file r = u "q.pdf" /\
    (success r = true <-> error r = None) /\
    (success r = true <-> quotes r <> []).
Proof.
  eexists. split; [vm_compute; reflexivity|].
  split; [reflexivity|].
  destruct (@process_single_pdf_result ascii_only (one_page_world one_column_page)
              (u "q.pdf") _ ltac:(vm_compute; reflexivity))
    as (Hf & He & Hq & _).
  split; [exact Hf|]. split; [exact He|exact Hq].
Defined.

(** The theorem on the items of Strategy A, at the document with two
    tiers: the groups hold the three accepted items, the tier of 2
    before the tier of 5. *)
Lemma vtn_output_holds_accepted_items_witness :
  exists gs : list quote_group,
    parse_vtn_format ascii_only tiered_document = Returns gs /\
    List.length (List.concat (map lineItems gs)) = 3%nat /\
    Permutation (List.concat (map lineItems gs))
      (vtn_items ascii_only tiered_document).
Proof.
  eexists. split; [vm_compute; reflexivity|].
  split; [reflexivity|].
  apply (@vtn_output_holds_accepted_items ascii_only tiered_document).
  vm_compute. reflexivity.
Defined.

(** The theorem on the tiers of Strategy A, at the document with two
    tiers. *)
Lemma vtn_groups_are_tiers_witness :
  exists gs : list quote_group,
    parse_vtn_format ascii_only tiered_document = Returns gs /\
    List.length gs = 2%nat /\
    Forall (fun g => lineItems g <> [] /\
                     exists k, lineItems g =
                               tier_items k (vtn_items ascii_only tiered_document))
      gs.
Proof.
  eexists. split; [vm_compute; reflexivity|].
  split; [reflexivity|].
  apply (@vtn_groups_are_tiers ascii_only tiered_document).
  vm_compute. reflexivity.
Defined.

(** The theorem on the order of the groups of Strategy A, at the
    document with two tiers. *)
Lemma vtn_groups_ascending_witness :
  exists gs : list quote_group,
    parse_vtn_format ascii_only tiered_document = Returns gs /\
    map group_quantity gs = [u "2"; u "10"] /\
    StronglySorted (tier_before ascii_only) gs.
Proof.
  eexists. split; [vm_compute; reflexivity|].
  split; [reflexivity|].
  apply (@vtn_groups_ascending ascii_only tiered_document).
  vm_compute. reflexivity.
Defined.

(** The theorem on groups without items, at the document with two
    tiers. *)
Lemma parsed_groups_have_items_witness :
  exists gs : list quote_group,
    parse ascii_only tiered_document = Returns gs /\
    gs <> [] /\
    Forall (fun g => lineItems g <> []) gs.
Proof.
  eexists. split; [vm_compute; reflexivity|].
  split; [discriminate|].
  apply (@parsed_groups_have_items ascii_only tiered_document).
  vm_compute. reflexivity.
Defined.

(** The theorem on the cap of the quantities, at a line of Strategy A
    that starts with 20000. *)
Lemma quantities_are_capped_witness :
  exists gs : list quote_group,
    parse_vtn_format ascii_only [u "20000 Widget 5.5"] = Returns gs /\
    gs <> [] /\
    Forall (fun g => Forall (capped_quantity ascii_only) (lineItems g)) gs.
Proof.
  eexists. split; [vm_compute; reflexivity|].
  split; [discriminate|].
  apply (@quantities_are_capped ascii_only [u "20000 Widget 5.5"]).
  left. vm_compute. reflexivity.
Defined.

(** The theorem on what Strategies A and B return, at the document
    with two tiers. *)
Lemma vtn_and_sematool_return_witness :
  (exists gs, parse_vtn_format ascii_only tiered_document = Returns gs) /\
  (exists gs, parse_sematool_format ascii_only tiered_document = Returns gs).
Proof.
  apply (@vtn_and_sematool_return ascii_only tiered_document).
  vm_compute. reflexivity.
Defined.

(** The theorem on documents without numbers, at a document that names
    its format and two columns. *)
Lemma number_free_document_witness :
  parse_vtn_format ascii_only wordy_document = Returns [] /\
  parse_sematool_format ascii_only wordy_document = Returns [] /\
  parse_thirtytwo_machine_format ascii_only wordy_document = Returns [] /\
  parse ascii_only wordy_document = Returns [].
Proof.
  apply (@number_free_document_yields_nothing ascii_only wordy_document).
  intros line [<-|[<-|[<-|[]]]];
    unfold without; repeat (constructor; [vm_compute; reflexivity|]); constructor.
Defined.

(** The theorem on the report for a document without numbers. *)
Lemma number_free_pdf_witness :
  process_single_pdf ascii_only (one_page_world wordy_page) (u "q.pdf") =
    Returns {| file := u "q.pdf"; success := false;
               error := Some (u "No quote data could be extracted");
               quotes := [] |}.
Proof.
  apply (@number_free_pdf_is_reported ascii_only (one_page_world wordy_page)
           (u "q.pdf") [wordy_page]).
  - reflexivity.
  - reflexivity.
  - unfold without. vm_compute.
    repeat (constructor; [reflexivity|]). constructor.
Defined.

(** A line whose leading integer has 4301 digits: [int] refuses the
    integer and Strategy A skips the line. *)
Lemma long_quantity_line_skipped (U : unicode_ext) :
  py_int U long_integer = Raises ValueError /\
  vtn_line U (long_integer ++ u " Widget 5.5") = None.
Proof.
  split; [apply py_int_refuses_long; vm_compute; reflexivity|].
  apply (@unreadable_quantity_skipped U
           (long_integer ++ u " Widget 5.5")
           (0%nat, {| pos := S (S int_max_str_digits); prev := Some 32%N;
                      rest := u "Widget 5.5";
                      caps := [(0, S int_max_str_digits)%nat] |})
           ValueError).
  - vm_compute. reflexivity.
  - vm_compute. reflexivity.
Qed.
